(** * Map view: geometry helper, live point updates, polygon pagination
      and selection

    Shallow embedding of [src/src/types/map.ts] (the [MapComponent] React
    component and its helper [getMultiPolygonCenter]).

    - JavaScript numbers that carry coordinates are IEEE-754 binary64
      values: they are modelled by Rocq's primitive floats, so that
      rounding, infinities and NaN behave as in the source.
    - Integer keys and counters ([gid], [count], array offsets) are [Z].
    - [try]/[catch] is modelled with an explicit result type.
    - React state is one record; every [setX] call is a record update.
    - An [async] function is cut at its [await]: one function for the part
      before it, one for the continuation that receives the outcome. *)

From Stdlib Require Import String List ZArith Bool Lia.
From Stdlib Require Import PrimFloat Uint63 SpecFloat FloatOps FloatAxioms.
Import ListNotations.

Set Warnings "-inexact-float".

(** ** JavaScript values that can be thrown *)

(** [err instanceof Error ? err.message : default] only distinguishes
    [Error] instances (which carry a message) from everything else. *)
Inductive thrown : Type :=
| JsError (message : string)
| NonError.

(** Outcome of evaluating a block that may throw. *)
Inductive completion (A : Type) : Type :=
| Normal (a : A)
| Throw (t : thrown).
Arguments Normal {A} a.
Arguments Throw {A} t.

Definition bind {A B : Type} (c : completion A) (k : A -> completion B)
  : completion B :=
  match c with
  | Normal a => k a
  | Throw t => Throw t
  end.

Notation "x <- c ;; k" := (bind c (fun x => k))
  (at level 61, c at next level, right associativity).

(** [try { body } catch (error) { handler }] *)
Definition try_catch {A : Type} (body : completion A)
  (handler : thrown -> completion A) : completion A :=
  match body with
  | Normal a => Normal a
  | Throw t => handler t
  end.

(** ** GeoJSON geometry *)

(** [GeoJSON.Position] is [number[]], a polygon is an array of rings and a
    multi-polygon an array of polygons ([Position[][][]]). *)
Definition Position : Type := list float.
Definition Ring : Type := list Position.
Definition Polygon : Type := list Ring.

Record MultiPolygon : Type := mkMultiPolygon {
  mp_coordinates : list Polygon
}.

(** ** The geometry helper *)

Module Geometry.

(** An element of the array built by [flatMap]. When a polygon has no
    ring, [polygon[0]] is [undefined]; [flatMap] keeps a value that is not
    an array as one element. *)
Inductive coord : Type :=
| Coord (p : Position)
| Undefined.

(** [polygon[0]], flattened one level the way [flatMap] does. *)
Definition outer_ring (polygon : Polygon) : list coord :=
  match polygon with
  | [] => [Undefined]
  | ring :: _ => map Coord ring
  end.

(** [geom.coordinates.flatMap(polygon => polygon[0])] *)
Definition allCoords (geom : MultiPolygon) : list coord :=
  flat_map outer_ring (mp_coordinates geom).

(** [coord[i]] used as an operand of [+]: reading an index of [undefined]
    throws a TypeError; an index past the end reads [undefined], which
    [+] converts to NaN. *)
Definition component (i : nat) (c : coord) : completion float :=
  match c with
  | Undefined =>
      Throw (JsError "Cannot read properties of undefined")
  | Coord p => Normal (nth i p nan)
  end.

(** [allCoords.reduce((sum, coord) => sum + coord[i], 0)] *)
Fixpoint reduce_sum (i : nat) (cs : list coord) (sum : float)
  : completion float :=
  match cs with
  | [] => Normal sum
  | c :: rest =>
      x <- component i c ;;
      reduce_sum i rest (sum + x)%float
  end.

(** An array length as a JavaScript number (lengths are below 2^32, where
    the conversion is exact). *)
Definition length_number {A : Type} (l : list A) : float :=
  of_uint63 (Uint63.of_Z (Z.of_nat (length l))).

(** [isNaN(x)] on a number. *)
Definition isNaN (x : float) : bool := is_nan x.

(** The default position returned by the [catch] block. *)
Definition fallback : float * float := ((-122.4)%float, 37.8%float).

(** The body of the [try] block. *)
Definition center_body (geom : MultiPolygon) : completion (float * float) :=
  let coords := allCoords geom in
  if (length coords =? 0)%nat then
    Throw (JsError "No coordinates found in MultiPolygon")
  else
    sumX <- reduce_sum 0 coords 0%float ;;
    sumY <- reduce_sum 1 coords 0%float ;;
    let centerX := (sumX / length_number coords)%float in
    let centerY := (sumY / length_number coords)%float in
    if isNaN centerX || isNaN centerY then
      Throw (JsError "Invalid center coordinates calculated")
    else
      Normal (centerX, centerY).

(** [getMultiPolygonCenter], with its [catch] block. *)
Definition getMultiPolygonCenter (geom : MultiPolygon)
  : completion (float * float) :=
  try_catch (center_body geom) (fun _ => Normal fallback).

End Geometry.

(** ** Records of the two collections *)

Module MapPoint.
Record t : Type := mk {
  id : string;
  name : string;
  description : string;
  coordinates : float * float;
  created_at : string
}.
End MapPoint.

Module Abalone.
(** [geom] is tested for truthiness before use ([abalone.geom] in
    [handleMapClick]): a row of the view can carry a null geometry, so the
    field is optional here. *)
Record t : Type := mk {
  gid : Z;
  id_no : Z;
  sci_name : string;
  presence : Z;
  compiler : string;
  citation : string;
  geom : option MultiPolygon;
  created_at : option string
}.
End Abalone.

Definition PAGE_SIZE : Z := 100.

(** ** Component state: the nine [useState] cells *)

Record State : Type := mkState {
  points : list MapPoint.t;
  abalones : list Abalone.t;
  selectedPoint : option MapPoint.t;
  selectedAbalone : option Abalone.t;
  selectedCoordinates : option (float * float);
  error : option string;
  loading : bool;
  loadingMore : bool;
  hasMore : bool
}.

(** State on mount. *)
Definition initialState : State :=
  mkState [] [] None None None None true false true.

(** The setters; [setPoints] and [setAbalones] take an updater function as
    in [setPoints(current => ...)]. *)
Definition setPoints (f : list MapPoint.t -> list MapPoint.t) (s : State)
  : State :=
  mkState (f (points s)) (abalones s) (selectedPoint s) (selectedAbalone s)
    (selectedCoordinates s) (error s) (loading s) (loadingMore s) (hasMore s).

Definition setAbalones (f : list Abalone.t -> list Abalone.t) (s : State)
  : State :=
  mkState (points s) (f (abalones s)) (selectedPoint s) (selectedAbalone s)
    (selectedCoordinates s) (error s) (loading s) (loadingMore s) (hasMore s).

Definition setSelectedPoint (v : option MapPoint.t) (s : State) : State :=
  mkState (points s) (abalones s) v (selectedAbalone s)
    (selectedCoordinates s) (error s) (loading s) (loadingMore s) (hasMore s).

Definition setSelectedAbalone (v : option Abalone.t) (s : State) : State :=
  mkState (points s) (abalones s) (selectedPoint s) v
    (selectedCoordinates s) (error s) (loading s) (loadingMore s) (hasMore s).

Definition setSelectedCoordinates (v : option (float * float)) (s : State)
  : State :=
  mkState (points s) (abalones s) (selectedPoint s) (selectedAbalone s)
    v (error s) (loading s) (loadingMore s) (hasMore s).

Definition setError (v : option string) (s : State) : State :=
  mkState (points s) (abalones s) (selectedPoint s) (selectedAbalone s)
    (selectedCoordinates s) v (loading s) (loadingMore s) (hasMore s).

Definition setLoading (v : bool) (s : State) : State :=
  mkState (points s) (abalones s) (selectedPoint s) (selectedAbalone s)
    (selectedCoordinates s) (error s) v (loadingMore s) (hasMore s).

Definition setLoadingMore (v : bool) (s : State) : State :=
  mkState (points s) (abalones s) (selectedPoint s) (selectedAbalone s)
    (selectedCoordinates s) (error s) (loading s) v (hasMore s).

Definition setHasMore (v : bool) (s : State) : State :=
  mkState (points s) (abalones s) (selectedPoint s) (selectedAbalone s)
    (selectedCoordinates s) (error s) (loading s) (loadingMore s) v.

(** ** Stateful blocks that may throw *)

(** A block runs on a state and completes normally or by throwing; the
    state updates made before a throw are kept. *)
Definition block : Type := State -> completion unit * State.

(** [try { body } catch (err) { handler } finally { final }], for handlers
    and finalisers that only call setters. *)
Definition try_catch_finally (body : block) (handler : thrown -> State -> State)
  (final : State -> State) (s : State) : State :=
  let (c, s1) := body s in
  final (match c with
         | Normal _ => s1
         | Throw t => handler t s1
         end).

(** [err instanceof Error ? err.message : fallback_message] *)
Definition message_of (err : thrown) (fallback_message : string) : string :=
  match err with
  | JsError m => m
  | NonError => fallback_message
  end.

(** A promise that has settled. *)
Inductive settled (A : Type) : Type :=
| Fulfilled (a : A)
| Rejected (t : thrown).
Arguments Fulfilled {A} a.
Arguments Rejected {A} t.

(** ** Polygon pagination: [fetchAbalones] and [handleMapMove] *)

(** What the query on [simplified_abalones] resolves to:
    [{ data, error, count }]. *)
Record AbalonesResponse : Type := mkAbalonesResponse {
  data : option (list Abalone.t);
  abalonesError : option thrown;
  count : option Z
}.

(** [.range(from, to)] of the request that is sent. *)
Record RangeRequest : Type := mkRange {
  range_from : Z;
  range_to : Z
}.

(** [fetchAbalones] up to its [await]: the flag is raised and the range
    query is sent. *)
Definition fetchAbalones_begin (startIndex : Z) (s : State)
  : State * RangeRequest :=
  (setLoadingMore true s, mkRange startIndex (startIndex + PAGE_SIZE - 1)%Z).

(** The rest of the [try] block, once the query has settled. In
    [count ? ... : false] a null count and a count of 0 are falsy. *)
Definition fetchAbalones_try (startIndex : Z) (o : settled AbalonesResponse)
  : block :=
  fun s =>
    match o with
    | Rejected t => (Throw t, s)
    | Fulfilled r =>
        match abalonesError r with
        | Some e => (Throw e, s)
        | None =>
            match data r with
            | Some page =>
                let s1 := setAbalones (fun current => current ++ page) s in
                let more :=
                  match count r with
                  | Some n =>
                      if negb (n =? 0)%Z
                      then (startIndex + PAGE_SIZE <? n)%Z
                      else false
                  | None => false
                  end in
                (Normal tt, setHasMore more s1)
            | None => (Normal tt, s)
            end
        end
    end.

(** [fetchAbalones] from its [await] to its end. *)
Definition fetchAbalones_resume (startIndex : Z)
  (o : settled AbalonesResponse) : State -> State :=
  try_catch_finally
    (fetchAbalones_try startIndex o)
    (fun err => setError (Some (message_of err "Failed to load abalone data")))
    (setLoadingMore false).

(** [handleMapMove]: the new state and the request sent, if any. *)
Definition handleMapMove (s : State) : State * option RangeRequest :=
  if negb (loadingMore s) && hasMore s then
    let (s1, req) :=
      fetchAbalones_begin (Z.of_nat (length (abalones s))) s in
    (s1, Some req)
  else (s, None).

(** The pagination sub-state that the two flags encode. *)
Inductive SubState : Type := Idle | Fetching | Exhausted.

Definition subState (s : State) : SubState :=
  if loadingMore s then Fetching
  else if hasMore s then Idle else Exhausted.

(** ** Live updates of the point collection *)

(** The change payloads of the [points_changes] channel. A delete only
    carries the old row, of which the id is read. *)
Inductive payload : Type :=
| INSERT (new : MapPoint.t)
| UPDATE (new : MapPoint.t)
| DELETE (old_id : string).

(** The subscription callback. *)
Definition on_points_change (p : payload) : State -> State :=
  match p with
  | INSERT new => setPoints (fun current => current ++ [new])
  | DELETE old_id =>
      setPoints (fun current =>
        filter (fun point => negb (MapPoint.id point =? old_id)%string)
          current)
  | UPDATE new =>
      setPoints (fun current =>
        map (fun point =>
               if (MapPoint.id point =? MapPoint.id new)%string
               then new else point)
          current)
  end.

(** ** Selection: [handleMapClick], marker clicks and popup closing *)

(** A clicked map feature; only [feature.properties.gid] is read. *)
Record Feature : Type := mkFeature {
  properties_gid : Z
}.

(** [handleMapClick]; [features] is [event.features], which can be
    missing. *)
Definition handleMapClick (features : option (list Feature)) (s : State)
  : State :=
  match features with
  | Some (feature :: _) =>
      match find (fun a => (Abalone.gid a =? properties_gid feature)%Z)
              (abalones s) with
      | Some abalone =>
          match Abalone.geom abalone with
          | Some g =>
              match Geometry.getMultiPolygonCenter g with
              | Normal center =>
                  setSelectedPoint None
                    (setSelectedCoordinates (Some center)
                       (setSelectedAbalone (Some abalone) s))
              | Throw _ =>
                  setSelectedCoordinates None (setSelectedAbalone None s)
              end
          | None => s
          end
      | None => s
      end
  | _ =>
      setSelectedPoint None
        (setSelectedCoordinates None (setSelectedAbalone None s))
  end.

(** The [onClick] of the marker of [point]. *)
Definition markerClick (point : MapPoint.t) (s : State) : State :=
  setSelectedCoordinates None
    (setSelectedAbalone None (setSelectedPoint (Some point) s)).

(** The [onClose] of the point popup. *)
Definition pointPopupClose (s : State) : State := setSelectedPoint None s.

(** The [onClose] of the polygon popup. *)
Definition abalonePopupClose (s : State) : State :=
  setSelectedCoordinates None (setSelectedAbalone None s).

(** ** What is rendered *)

(** [if (error)]: null and the empty string are falsy. *)
Definition error_shown (s : State) : option string :=
  match error s with
  | Some m => if (m =? "")%string then None else Some m
  | None => None
  end.

(** The rendered tree, reduced to what decides which handlers are wired. *)
Inductive View : Type :=
| ErrorPanel (message : string)
| MapView (loadingOverlay loadingMoreBadge : bool)
    (markers : list MapPoint.t)
    (pointPopup : option MapPoint.t)
    (abalonePopup : option (Abalone.t * (float * float))).

Definition render (s : State) : View :=
  match error_shown s with
  | Some m => ErrorPanel m
  | None =>
      MapView (loading s) (loadingMore s) (points s) (selectedPoint s)
        (match selectedAbalone s, selectedCoordinates s with
         | Some a, Some c => Some (a, c)
         | _, _ => None
         end)
  end.

(** ** The component as an event-driven system *)

(** What the query on [points] resolves to. *)
Record PointsResponse : Type := mkPointsResponse {
  pointsData : option (list MapPoint.t);
  pointsError : option thrown
}.

(** A polygon-page query that has been sent and has not settled; [awaited]
    marks the call [await fetchAbalones(0)] of [fetchData]. *)
Record Pending : Type := mkPending {
  startIndex : Z;
  awaited : bool
}.

(** The component between two events: its state, whether the query of
    [fetchData] on [points] is still out, and the polygon-page queries in
    flight. *)
Record World : Type := mkWorld {
  state : State;
  pointsPending : bool;
  inFlight : list Pending
}.

(** After mount: the effect has called [fetchData], which awaits the point
    query, and has subscribed to [points_changes]. *)
Definition mounted : World := mkWorld initialState true [].

Inductive Event : Type :=
| PointsSettled (o : settled PointsResponse)
| AbalonesSettled (k : nat) (o : settled AbalonesResponse)
| PointsChange (p : payload)
| MapClick (features : option (list Feature))
| MoveEnd
| ZoomEnd
| MarkerClick (i : nat)
| PointPopupClose
| AbalonePopupClose.

(** [fetchData] from the settling of the point query on. It ends in its
    [catch] and [finally], or goes on to [await fetchAbalones(0)]. *)
Definition fetchData_resume (o : settled PointsResponse) (w : World) : World :=
  let s := state w in
  let failed (t : thrown) :=
    mkWorld
      (setLoading false (setError (Some (message_of t "Failed to load data")) s))
      false (inFlight w) in
  match o with
  | Rejected t => failed t
  | Fulfilled r =>
      match pointsError r with
      | Some e => failed e
      | None =>
          let s1 :=
            setPoints (fun _ => match pointsData r with
                                | Some l => l
                                | None => []
                                end) s in
          let (s2, _) := fetchAbalones_begin 0 s1 in
          mkWorld s2 false (inFlight w ++ [mkPending 0 true])
      end
  end.

(** Removes the element at index [k]. *)
Fixpoint remove_nth {A : Type} (k : nat) (l : list A) : list A :=
  match l, k with
  | [], _ => []
  | _ :: rest, O => rest
  | x :: rest, S k' => x :: remove_nth k' rest
  end.

(** A map handler runs only while the map is rendered. *)
Definition on_map (w : World) (h : State -> State) : option World :=
  match render (state w) with
  | ErrorPanel _ => None
  | MapView _ _ _ _ _ =>
      Some (mkWorld (h (state w)) (pointsPending w) (inFlight w))
  end.

(** [onMoveEnd] and [onZoomEnd]. *)
Definition move_end (w : World) : option World :=
  match render (state w) with
  | ErrorPanel _ => None
  | MapView _ _ _ _ _ =>
      match handleMapMove (state w) with
      | (s1, Some req) =>
          Some (mkWorld s1 (pointsPending w)
                  (inFlight w ++ [mkPending (range_from req) false]))
      | (s1, None) => Some (mkWorld s1 (pointsPending w) (inFlight w))
      end
  end.

(** One event; [None] when the event cannot occur in [w]. *)
Definition step (w : World) (e : Event) : option World :=
  match e with
  | PointsSettled o =>
      if pointsPending w then Some (fetchData_resume o w) else None
  | AbalonesSettled k o =>
      match nth_error (inFlight w) k with
      | Some p =>
          let s1 := fetchAbalones_resume (startIndex p) o (state w) in
          let s2 := if awaited p then setLoading false s1 else s1 in
          Some (mkWorld s2 (pointsPending w) (remove_nth k (inFlight w)))
      | None => None
      end
  | PointsChange p =>
      Some (mkWorld (on_points_change p (state w)) (pointsPending w)
              (inFlight w))
  | MapClick features => on_map w (handleMapClick features)
  | MoveEnd | ZoomEnd => move_end w
  | MarkerClick i =>
      match nth_error (points (state w)) i with
      | Some point => on_map w (markerClick point)
      | None => None
      end
  | PointPopupClose =>
      match selectedPoint (state w) with
      | Some _ => on_map w pointPopupClose
      | None => None
      end
  | AbalonePopupClose =>
      match selectedAbalone (state w), selectedCoordinates (state w) with
      | Some _, Some _ => on_map w abalonePopupClose
      | _, _ => None
      end
  end.

(** A sequence of events from [w]. *)
Fixpoint run (w : World) (es : list Event) : option World :=
  match es with
  | [] => Some w
  | e :: rest =>
      match step w e with
      | Some w1 => run w1 rest
      | None => None
      end
  end.

Definition reachable (w : World) : Prop :=
  exists es, run mounted es = Some w.

(** ** The vertex average, stated on the data *)

Module VertexMean.

(** The vertices of the outer rings of all polygons, in order; inner rings
    (every ring after the first) are left out. *)
Definition outer_vertices (geom : MultiPolygon) : list Position :=
  flat_map (fun polygon : Polygon =>
              match polygon with
              | [] => []
              | ring :: _ => ring
              end)
    (mp_coordinates geom).

(** Longitude and latitude of a position; a missing component is not a
    number. *)
Definition lon (p : Position) : float := nth 0 p nan.
Definition lat (p : Position) : float := nth 1 p nan.

(** The arithmetic mean in binary64 arithmetic: the sum taken from the
    left, starting at 0, divided by the number of values. *)
Definition mean (xs : list float) : float :=
  (fold_left PrimFloat.add xs 0 / Geometry.length_number xs)%float.

Definition mean_lon (geom : MultiPolygon) : float :=
  mean (map lon (outer_vertices geom)).

Definition mean_lat (geom : MultiPolygon) : float :=
  mean (map lat (outer_vertices geom)).

(** Some polygon has no ring at all. *)
Definition ringless (geom : MultiPolygon) : bool :=
  existsb (fun polygon : Polygon =>
             match polygon with
             | [] => true
             | _ :: _ => false
             end)
    (mp_coordinates geom).

(** The inputs on which no vertex average exists. *)
Definition degenerate (geom : MultiPolygon) : bool :=
  ringless geom
  || (length (outer_vertices geom) =? 0)%nat
  || is_nan (mean_lon geom)
  || is_nan (mean_lat geom).

(** The same multi-polygon with every inner ring dropped. *)
Definition outer_only (geom : MultiPolygon) : MultiPolygon :=
  mkMultiPolygon (map (firstn 1) (mp_coordinates geom)).

End VertexMean.

(** ** Sample geometries *)

(** The two triangles of the specification's scenario. *)
Definition two_triangles : MultiPolygon :=
  mkMultiPolygon
    [ [ [ [0; 0]; [2; 0]; [1; 2] ] ];
      [ [ [4; 0]; [6; 0]; [5; 2] ] ] ]%float.

(** A ring through two vertices at opposite infinite longitudes
    ([JSON.parse] reads [1e999] as [Infinity]). *)
Definition opposite_infinities : MultiPolygon :=
  mkMultiPolygon [ [ [ [infinity; 0%float]; [neg_infinity; 0%float] ] ] ].

(** ** Sample records, responses and event sequences *)

Definition pier : MapPoint.t :=
  MapPoint.mk "p1" "Pier" "Old pier" ((-122.41)%float, 37.81%float)
    "2025-01-20T07:10:15Z".

(** A second record with the id of [pier]. *)
Definition pier_renamed : MapPoint.t :=
  MapPoint.mk "p1" "Pier 39" "Renamed" ((-122.41)%float, 37.81%float)
    "2025-01-20T07:10:15Z".

Definition lighthouse : MapPoint.t :=
  MapPoint.mk "p2" "Lighthouse" "" ((-122.52)%float, 37.78%float)
    "2025-01-21T05:36:40Z".

Definition red_abalone : Abalone.t :=
  Abalone.mk 42 61743 "Haliotis rufescens" 1 "IUCN" "IUCN 2021"
    (Some two_triangles) None.

(** A row whose simplified geometry is null. *)
Definition collapsed_abalone : Abalone.t :=
  Abalone.mk 43 61744 "Haliotis sorenseni" 1 "IUCN" "IUCN 2021" None None.

(** A state of the ready page holding the given collections. *)
Definition ready (ps : list MapPoint.t) (abs : list Abalone.t) : State :=
  mkState ps abs None None None None false false true.

(** A query on [simplified_abalones] answered with a page and a count. *)
Definition page_of (page : list Abalone.t) (total : option Z)
  : settled AbalonesResponse :=
  Fulfilled (mkAbalonesResponse (Some page) None total).

(** The point query answered with the given rows. *)
Definition points_of (ps : list MapPoint.t) : settled PointsResponse :=
  Fulfilled (mkPointsResponse (Some ps) None).

(** The thrown value of a query that fails: a rejected promise, or a
    response with its [error] set. *)
Definition failure (o : settled AbalonesResponse) : option thrown :=
  match o with
  | Rejected t => Some t
  | Fulfilled r => abalonesError r
  end.

(** Startup, one page, a viewport move, then the page query fails. *)
Definition failing_pagination : list Event :=
  [ PointsSettled (points_of [pier]);
    AbalonesSettled 0 (page_of [red_abalone] (Some 250%Z));
    MoveEnd;
    AbalonesSettled 0 (Rejected (JsError "network down")) ].

(** The viewport finishes a move while the point query of [fetchData] is
    still out; then the point query is answered. *)
Definition move_during_startup : list Event :=
  [ MoveEnd; PointsSettled (points_of [pier]) ].

(** Startup, then the marker of the first point is clicked, then the
    polygon with gid 42. *)
Definition point_then_polygon : list Event :=
  [ PointsSettled (points_of [pier]);
    AbalonesSettled 0 (page_of [red_abalone] (Some 1%Z));
    MarkerClick 0;
    MapClick (Some [mkFeature 42]) ].

(** ** Invariants of the system *)

(** The ids of the point collection, in order. *)
Definition ids (s : State) : list string := map MapPoint.id (points s).

(** At most one kind of selection, and an anchor exactly when a polygon is
    selected. *)
Definition selection_ok (s : State) : Prop :=
  (selectedPoint s = None \/ selectedAbalone s = None) /\
  (selectedAbalone s = None <-> selectedCoordinates s = None).

(** Single flight: the point query has settled, at most one page query is
    out, and the flag is raised while one is. *)
Definition single_flight (w : World) : Prop :=
  pointsPending w = false /\
  (length (inFlight w) <= 1)%nat /\
  (inFlight w <> [] -> loadingMore (state w) = true).

(** [a] is the first record of [l] with the given gid. *)
Definition first_with_gid (g : Z) (l : list Abalone.t) (a : Abalone.t)
  : Prop :=
  exists before after,
    l = before ++ a :: after /\
    Abalone.gid a = g /\
    forall b, In b before -> Abalone.gid b <> g.

(** ** The feature collection handed to the map: [abalonesGeoJSON] *)

Module GeoJSON.

(** The [properties] object of a feature. *)
Record Properties : Type := mkProperties {
  gid : Z;
  sci_name : string;
  presence : Z;
  compiler : string;
  citation : string
}.

(** A feature: [{ type: 'Feature', geometry, properties }]. *)
Record Feature : Type := mkFeature {
  geometry : option MultiPolygon;
  properties : Properties
}.

End GeoJSON.

(** [abalonesGeoJSON.features] *)
Definition abalonesGeoJSON (s : State) : list GeoJSON.Feature :=
  map (fun abalone =>
         GeoJSON.mkFeature (Abalone.geom abalone)
           (GeoJSON.mkProperties (Abalone.gid abalone)
              (Abalone.sci_name abalone) (Abalone.presence abalone)
              (Abalone.compiler abalone) (Abalone.citation abalone)))
    (abalones s).

(** What a click on a rendered feature reports to [handleMapClick]: the
    feature with its properties, of which the gid is read. *)
Definition clicked (f : GeoJSON.Feature) : Feature :=
  mkFeature (GeoJSON.gid (GeoJSON.properties f)).

(** ** Vocabulary for statements about the store and about startup *)

(** The rows that an inclusive range denotes on a table. *)
Definition range_rows (table : list Abalone.t) (req : RangeRequest)
  : list Abalone.t :=
  firstn (Z.to_nat (range_to req - range_from req + 1))
    (skipn (Z.to_nat (range_from req)) table).

(** A response that carries the rows of the range and the exact count. *)
Definition answers (table : list Abalone.t) (req : RangeRequest)
  (o : settled AbalonesResponse) : Prop :=
  exists r,
    o = Fulfilled r /\
    abalonesError r = None /\
    data r = Some (range_rows table req) /\
    count r = Some (Z.of_nat (length table)).

(** One viewport move followed by the answer of the store to the request
    that the move sends, if it sends one. *)
Definition page_round (store : RangeRequest -> settled AbalonesResponse)
  (s : State) : State :=
  match handleMapMove s with
  | (s1, Some req) => fetchAbalones_resume (range_from req) (store req) s1
  | (s1, None) => s1
  end.

(** The loaded polygons are the first rows of the table, all of them once
    the has-more flag is lowered, and no page query is out. *)
Definition loaded_prefix (table : list Abalone.t) (s : State) : Prop :=
  loadingMore s = false /\
  abalones s = firstn (length (abalones s)) table /\
  (hasMore s = false -> abalones s = table).

(** The number of steps of [fetchData] that are still to come: its point
    query, or the page query it awaits. *)
Definition startup_steps (w : World) : nat :=
  length (filter awaited (inFlight w)) + (if pointsPending w then 1 else 0).

(** [fetchData] has not reached its [finally] yet. *)
Definition startup_running (w : World) : bool :=
  pointsPending w || existsb awaited (inFlight w).

(** Nothing is out and the error panel is shown. *)
Definition halted (w : World) : Prop :=
  pointsPending w = false /\
  inFlight w = [] /\
  error_shown (state w) <> None.


(** The events that the selection handlers serve. *)
Definition selection_event (e : Event) : bool :=
  match e with
  | MapClick _ | MarkerClick _ | PointPopupClose | AbalonePopupClose => true
  | _ => false
  end.



(** A table of 250 rows and a store that answers from it. *)
Definition sample_table : list Abalone.t := repeat red_abalone 250.

Definition sample_store (req : RangeRequest) : settled AbalonesResponse :=
  Fulfilled
    (mkAbalonesResponse (Some (range_rows sample_table req)) None
       (Some (Z.of_nat (length sample_table)))).

(** * Properties *)

(** ** Geometry helper *)

Section GeometryFacts.

Import Geometry VertexMean.

Lemma reduce_sum_coords (i : nat) (vs : list Position) (acc : float) :
  reduce_sum i (map Coord vs) acc
  = Normal (fold_left PrimFloat.add (map (fun p => nth i p nan) vs) acc).
Proof.
  revert acc. induction vs as [|v vs IH]; intro acc; simpl.
  - reflexivity.
  - apply IH.
Qed.

Lemma reduce_sum_undefined (i : nat) (cs : list coord) (acc : float) :
  In Undefined cs -> exists t, reduce_sum i cs acc = Throw t.
Proof.
  revert acc. induction cs as [|c cs IH]; intros acc Hin.
  - destruct Hin.
  - destruct c as [p|]; simpl.
    + destruct Hin as [Heq|Hin]; [discriminate|]. apply IH, Hin.
    + eexists. reflexivity.
Qed.

Lemma ringless_undefined (geom : MultiPolygon) :
  ringless geom = true -> In Undefined (allCoords geom).
Proof.
  unfold ringless, allCoords. intro H.
  apply existsb_exists in H. destruct H as [polygon [Hin Hempty]].
  apply in_flat_map. exists polygon. split; [exact Hin|].
  destruct polygon; [left; reflexivity | discriminate].
Qed.

Lemma allCoords_outer_vertices (geom : MultiPolygon) :
  ringless geom = false ->
  allCoords geom = map Coord (outer_vertices geom).
Proof.
  unfold ringless, allCoords, outer_vertices.
  induction (mp_coordinates geom) as [|polygon rest IH]; simpl; intro H.
  - reflexivity.
  - apply orb_false_elim in H. destruct H as [Hp Hrest].
    rewrite map_app, IH by exact Hrest.
    destruct polygon; [discriminate | reflexivity].
Qed.

Lemma length_number_map {A B : Type} (f : A -> B) (l : list A) :
  length_number (map f l) = length_number l.
Proof. unfold length_number. rewrite length_map. reflexivity. Qed.

(** What [getMultiPolygonCenter] returns, on every input. *)
Lemma getMultiPolygonCenter_cases (geom : MultiPolygon) :
  getMultiPolygonCenter geom
  = Normal (if degenerate geom then fallback
            else (mean_lon geom, mean_lat geom)).
Proof.
  unfold degenerate, getMultiPolygonCenter, center_body.
  destruct (ringless geom) eqn:Hring; simpl.
  - destruct (length (allCoords geom) =? 0)%nat; [reflexivity|].
    destruct (reduce_sum_undefined 0 (allCoords geom) 0%float
                (ringless_undefined geom Hring)) as [t Ht].
    rewrite Ht. reflexivity.
  - rewrite (allCoords_outer_vertices geom Hring).
    rewrite length_map.
    destruct (length (outer_vertices geom) =? 0)%nat; [reflexivity|].
    rewrite !reduce_sum_coords. simpl.
    rewrite length_number_map.
    unfold isNaN, mean_lon, mean_lat, mean, lon, lat.
    rewrite !length_number_map.
    destruct (is_nan _ || is_nan _); reflexivity.
Qed.

End GeometryFacts.

Section GeometryClaims.

Import Geometry VertexMean.

Lemma outer_only_vertices (geom : MultiPolygon) :
  outer_vertices (outer_only geom) = outer_vertices geom.
Proof.
  unfold outer_vertices, outer_only. simpl.
  induction (mp_coordinates geom) as [|polygon rest IH]; simpl.
  - reflexivity.
  - rewrite IH. destruct polygon; reflexivity.
Qed.

Lemma outer_only_ringless (geom : MultiPolygon) :
  ringless (outer_only geom) = ringless geom.
Proof.
  unfold ringless, outer_only. simpl.
  induction (mp_coordinates geom) as [|polygon rest IH]; simpl.
  - reflexivity.
  - rewrite IH. destruct polygon; reflexivity.
Qed.

Lemma center_ignores_inner_rings (geom : MultiPolygon) :
  getMultiPolygonCenter (outer_only geom) = getMultiPolygonCenter geom.
Proof.
  rewrite !getMultiPolygonCenter_cases.
  unfold degenerate, mean_lon, mean_lat.
  rewrite outer_only_vertices, outer_only_ringless. reflexivity.
Qed.

Example center_two_triangles :
  getMultiPolygonCenter two_triangles = Normal (3%float, (4 / 6)%float).
Proof. vm_compute. reflexivity. Qed.

(** C7, as stated, fails: a multi-polygon with two outer-ring vertices
    whose longitudes sum to NaN gets the fallback coordinate, not the pair
    of means. *)
Lemma center_not_mean_when_nan :
  length (outer_vertices opposite_infinities) = 2%nat /\
  getMultiPolygonCenter opposite_infinities = Normal fallback /\
  getMultiPolygonCenter opposite_infinities
  <> Normal (mean_lon opposite_infinities, mean_lat opposite_infinities).
Proof.
  split; [reflexivity|]. split; [vm_compute; reflexivity|].
  intro H.
  pose proof (f_equal (fun c : completion (float * float) =>
                         match c with
                         | Normal (_, y) => PrimFloat.eqb y 0
                         | Throw _ => false
                         end) H) as E.
  vm_compute in E. discriminate E.
Qed.

(** C7 (amended): for every multi-polygon in which each polygon has an
    outer ring, with at least one outer-ring vertex, and whose mean
    longitude and mean latitude are both numbers, [getMultiPolygonCenter]
    returns exactly the pair (mean longitude, mean latitude) of the
    outer-ring vertices taken in order, the means being computed in
    binary64 arithmetic; inner rings do not influence the result. *)
Theorem center_is_vertex_mean (geom : MultiPolygon) :
  ringless geom = false ->
  outer_vertices geom <> [] ->
  is_nan (mean_lon geom) = false ->
  is_nan (mean_lat geom) = false ->
  getMultiPolygonCenter geom = Normal (mean_lon geom, mean_lat geom) /\
  getMultiPolygonCenter (outer_only geom) = getMultiPolygonCenter geom.
Proof.
  intros Hring Hne Hlon Hlat. split; [|apply center_ignores_inner_rings].
  rewrite getMultiPolygonCenter_cases. unfold degenerate.
  rewrite Hring, Hlon, Hlat.
  destruct (outer_vertices geom); [contradiction|reflexivity].
Qed.

Lemma center_is_vertex_mean_witness :
  getMultiPolygonCenter two_triangles = Normal (3%float, (4 / 6)%float).
Proof.
  refine (eq_trans
            (proj1 (center_is_vertex_mean two_triangles _ _ _ _)) _).
  - reflexivity.
  - discriminate.
  - vm_compute. reflexivity.
  - vm_compute. reflexivity.
  - vm_compute. reflexivity.
Defined.

(** C8: on every input [getMultiPolygonCenter] completes normally, and on
    the degenerate ones (no outer-ring vertex, a polygon without any ring,
    or a mean that is NaN) the value is the fallback coordinate. *)
Theorem center_never_raises (geom : MultiPolygon) :
  (exists c, getMultiPolygonCenter geom = Normal c) /\
  (outer_vertices geom = [] ->
   getMultiPolygonCenter geom = Normal fallback) /\
  (is_nan (mean_lon geom) = true \/ is_nan (mean_lat geom) = true ->
   getMultiPolygonCenter geom = Normal fallback) /\
  (ringless geom = true ->
   getMultiPolygonCenter geom = Normal fallback).
Proof.
  rewrite getMultiPolygonCenter_cases. unfold degenerate.
  split; [eexists; reflexivity|].
  split; [|split].
  - intro H. rewrite H. simpl. rewrite orb_true_r. reflexivity.
  - intros [H|H]; rewrite H; rewrite ?orb_true_r; reflexivity.
  - intro H. rewrite H. reflexivity.
Qed.

Lemma center_never_raises_witness :
  getMultiPolygonCenter (mkMultiPolygon []) = Normal fallback /\
  getMultiPolygonCenter opposite_infinities = Normal fallback.
Proof.
  split.
  - apply (proj1 (proj2 (center_never_raises (mkMultiPolygon [])))).
    reflexivity.
  - apply (proj1 (proj2 (proj2 (center_never_raises opposite_infinities)))).
    left. vm_compute. reflexivity.
Defined.

End GeometryClaims.

(** ** Live updates of the point collection *)

Section LiveUpdates.

(** C1, as stated, fails: inserting a record whose id is already present
    lengthens the collection and duplicates the id. *)
Lemma insert_present_id_duplicates :
  let s := ready [pier] [] in
  let s' := on_points_change (INSERT pier_renamed) s in
  In (MapPoint.id pier_renamed) (map MapPoint.id (points s)) /\
  points s' = [pier; pier_renamed] /\
  length (points s') <> length (points s) /\
  ~ NoDup (map MapPoint.id (points s')).
Proof.
  simpl. split; [left; reflexivity|]. split; [reflexivity|].
  split; [discriminate|].
  intro H. inversion H as [|x l Hnotin Hrest]; subst.
  apply Hnotin. left. reflexivity.
Qed.

(** C1 (amended): applying an insert notification always appends the
    record at the end of the collection, whether or not a point with that
    id is present. When the id was absent, ids that were pairwise distinct
    stay so; when it was present, the id now occurs twice. *)
Theorem insert_always_appends (s : State) (new : MapPoint.t) :
  let s' := on_points_change (INSERT new) s in
  points s' = points s ++ [new] /\
  length (points s') = S (length (points s)) /\
  (~ In (MapPoint.id new) (ids s) -> NoDup (ids s) -> NoDup (ids s')) /\
  (In (MapPoint.id new) (ids s) -> ~ NoDup (ids s')).
Proof.
  unfold ids. simpl. split; [reflexivity|]. split.
  - rewrite length_app. simpl. lia.
  - rewrite map_app. simpl. split.
    + intros Hnotin Hnodup.
      apply NoDup_app; [exact Hnodup | repeat constructor; intros [] | ].
      intros x Hx [Heq|[]]. subst x. exact (Hnotin Hx).
    + intros Hin Hnodup.
      apply NoDup_remove_2 in Hnodup. apply Hnodup.
      rewrite app_nil_r. exact Hin.
Qed.

Lemma insert_always_appends_witness :
  points (on_points_change (INSERT lighthouse) (ready [pier] []))
  = [pier; lighthouse] /\
  NoDup (map MapPoint.id
           (points (on_points_change (INSERT lighthouse) (ready [pier] [])))).
Proof.
  pose proof (insert_always_appends (ready [pier] []) lighthouse) as H.
  simpl in H. destruct H as [Happ [_ [Hfresh _]]].
  split; [exact Happ|].
  apply Hfresh.
  - intros [Heq|[]]. discriminate Heq.
  - repeat constructor. intros [].
Defined.

(** C4, as stated, fails: an update for an id that is not present leaves
    the collection as it is; the new record is not appended. *)
Lemma update_absent_id_not_appended :
  let s := ready [lighthouse] [] in
  let s' := on_points_change (UPDATE pier_renamed) s in
  ~ In (MapPoint.id pier_renamed) (map MapPoint.id (points s)) /\
  points s' = [lighthouse] /\
  points s' <> points s ++ [pier_renamed].
Proof.
  simpl. split; [|split].
  - intros [Heq|[]]. discriminate Heq.
  - reflexivity.
  - discriminate.
Qed.

(** C4 (amended): applying an update notification replaces, at its
    position, every point whose id is the id of the new record and keeps
    every other point; the length does not change. If no point has that
    id, the collection is unchanged (the record is not appended). *)
Theorem update_replaces_in_place (s : State) (new : MapPoint.t) :
  let s' := on_points_change (UPDATE new) s in
  length (points s') = length (points s) /\
  (forall i point,
     nth_error (points s) i = Some point ->
     nth_error (points s') i
     = Some (if (MapPoint.id point =? MapPoint.id new)%string
             then new else point)) /\
  (forall point,
     In point (points s') -> MapPoint.id point = MapPoint.id new ->
     point = new) /\
  (~ In (MapPoint.id new) (ids s) -> points s' = points s).
Proof.
  unfold ids. simpl. split; [apply length_map|]. split; [|split].
  - intros i point H. rewrite nth_error_map, H. reflexivity.
  - intros point Hin Hid. apply in_map_iff in Hin.
    destruct Hin as [q [Hq _]].
    destruct (MapPoint.id q =? MapPoint.id new)%string eqn:E.
    + symmetry. exact Hq.
    + subst q. rewrite Hid, String.eqb_refl in E. discriminate E.
  - induction (points s) as [|q rest IH]; simpl; intro Hnotin.
    + reflexivity.
    + destruct (MapPoint.id q =? MapPoint.id new)%string eqn:E.
      * apply String.eqb_eq in E. exfalso. apply Hnotin. left. exact E.
      * f_equal. apply IH. intro Hin. apply Hnotin. right. exact Hin.
Qed.

Lemma update_replaces_in_place_witness :
  nth_error
    (points (on_points_change (UPDATE pier_renamed)
               (ready [lighthouse; pier] [])))
    1
  = Some pier_renamed.
Proof.
  exact (proj1 (proj2 (update_replaces_in_place
                         (ready [lighthouse; pier] []) pier_renamed))
           1%nat pier eq_refl).
Defined.

End LiveUpdates.

(** ** Polygon pagination *)

Section Pagination.

Lemma fetchAbalones_resume_loadingMore (i : Z)
  (o : settled AbalonesResponse) (s : State) :
  loadingMore (fetchAbalones_resume i o s) = false.
Proof.
  unfold fetchAbalones_resume, try_catch_finally.
  destruct (fetchAbalones_try i o s) as [c s1]. reflexivity.
Qed.

Lemma fetchAbalones_resume_failure (i : Z) (o : settled AbalonesResponse)
  (t : thrown) (s : State) :
  failure o = Some t ->
  fetchAbalones_resume i o s
  = setLoadingMore false
      (setError (Some (message_of t "Failed to load abalone data")) s).
Proof.
  unfold fetchAbalones_resume, try_catch_finally, fetchAbalones_try, failure.
  destruct o as [r|t0]; intro H.
  - rewrite H. reflexivity.
  - injection H as ->. reflexivity.
Qed.

(** The guard of [handleMapMove]: outside the idle sub-state nothing is
    sent and nothing changes. *)
Lemma handleMapMove_guard (s : State) :
  subState s <> Idle -> handleMapMove s = (s, None).
Proof.
  unfold subState, handleMapMove.
  destruct (loadingMore s), (hasMore s); simpl; try reflexivity.
  intro H. exfalso. apply H. reflexivity.
Qed.

Lemma handleMapMove_idle (s : State) :
  subState s = Idle ->
  handleMapMove s
  = (setLoadingMore true s,
     Some (mkRange (Z.of_nat (length (abalones s)))
             (Z.of_nat (length (abalones s)) + PAGE_SIZE - 1))).
Proof.
  unfold subState, handleMapMove.
  destruct (loadingMore s), (hasMore s); simpl; try discriminate.
  reflexivity.
Qed.

(** C2, as stated, fails: a successful fetch that returns a non-empty
    page without a total count leaves the sub-state exhausted, not idle. *)
Lemma unknown_count_exhausts :
  let s := fst (fetchAbalones_begin 0 (ready [] [])) in
  let s' := fetchAbalones_resume 0 (page_of [red_abalone] None) s in
  abalones s' = [red_abalone] /\
  subState s' = Exhausted /\
  subState s' <> Idle.
Proof.
  simpl. split; [reflexivity|]. split; [reflexivity|discriminate].
Qed.

(** An empty page does not exhaust either, as long as the count says that
    more rows exist. *)
Example empty_page_stays_idle :
  subState (fetchAbalones_resume 0 (page_of [] (Some 250%Z))
              (fst (fetchAbalones_begin 0 (ready [] []))))
  = Idle.
Proof. reflexivity. Qed.

(** C2 (amended): after a successful fetch that returns a page, the page
    is appended and the sub-state becomes idle exactly when the total
    count is known (and not 0) and offset + page size < total count; in
    every other case (offset + page size >= total count, or no count) it
    becomes exhausted. Whether the page is empty plays no part. *)
Theorem page_fetch_substate (s : State) (offset : Z)
  (r : AbalonesResponse) (page : list Abalone.t) :
  abalonesError r = None ->
  data r = Some page ->
  let s' := fetchAbalones_resume offset (Fulfilled r) s in
  abalones s' = abalones s ++ page /\
  (subState s' = Idle <->
   exists total,
     count r = Some total /\ total <> 0%Z /\
     (offset + PAGE_SIZE < total)%Z) /\
  (subState s' = Exhausted <->
   count r = None \/
   exists total,
     count r = Some total /\
     (total = 0%Z \/ (offset + PAGE_SIZE >= total)%Z)).
Proof.
  intros Herr Hdata.
  unfold fetchAbalones_resume, try_catch_finally, fetchAbalones_try, subState.
  rewrite Herr, Hdata. simpl.
  split; [reflexivity|].
  destruct (count r) as [total|]; simpl;
    [ destruct (Z.eqb_spec total 0) as [Hz|Hnz]; simpl;
      [ | destruct (Z.ltb_spec (offset + PAGE_SIZE) total) as [Hlt|Hge] ]
    | ];
    (split; split; intro H; try discriminate H; try reflexivity).
  - destruct H as [t [Ht [Hne _]]]. injection Ht as <-. contradiction.
  - right. exists total. auto.
  - exists total. auto.
  - destruct H as [H|[t [Ht [Hz|Hge]]]]; [discriminate H| |];
      injection Ht as <-; [contradiction|lia].
  - destruct H as [t [Ht [_ Hlt]]]. injection Ht as <-. lia.
  - right. exists total. split; [reflexivity|]. right. lia.
  - destruct H as [t [Ht _]]. discriminate Ht.
  - left. reflexivity.
Qed.

Lemma page_fetch_substate_witness :
  subState (fetchAbalones_resume 100
              (Fulfilled (mkAbalonesResponse (Some [red_abalone]) None
                            (Some 250%Z)))
              (ready [] []))
  = Idle /\
  subState (fetchAbalones_resume 200
              (Fulfilled (mkAbalonesResponse (Some [red_abalone]) None
                            (Some 250%Z)))
              (ready [] []))
  = Exhausted.
Proof.
  split.
  - apply (proj2 (proj1 (proj2 (page_fetch_substate (ready [] []) 100
                                   (mkAbalonesResponse (Some [red_abalone])
                                      None (Some 250%Z))
                                   [red_abalone] eq_refl eq_refl)))).
    exists 250%Z. split; [reflexivity|]. split; [discriminate|reflexivity].
  - apply (proj2 (proj2 (proj2 (page_fetch_substate (ready [] []) 200
                                   (mkAbalonesResponse (Some [red_abalone])
                                      None (Some 250%Z))
                                   [red_abalone] eq_refl eq_refl)))).
    right. exists 250%Z. split; [reflexivity|]. right. discriminate.
Defined.

End Pagination.

(** ** The event system *)

Section System.

(** Case analysis on every [match] and [if] of the goal. *)
Ltac split_cases :=
  repeat match goal with
    | |- context [match ?x with _ => _ end] => destruct x eqn:?
    | |- context [if ?x then _ else _] => destruct x eqn:?
    end.

(** Opens the definition of one step. *)
Ltac open_step H :=
  unfold step, on_map, move_end, handleMapMove, fetchData_resume,
    fetchAbalones_resume, try_catch_finally, fetchAbalones_try,
    fetchAbalones_begin, on_points_change, handleMapClick, markerClick,
    pointPopupClose, abalonePopupClose in H.

(** Case analysis on the scrutinees of [H], innermost first. *)
Ltac settle H :=
  cbv beta iota zeta in H;
  repeat match type of H with
    | context [match ?x with _ => _ end] =>
        lazymatch x with
        | context [match _ with _ => _ end] => fail
        | _ => destruct x eqn:?; cbv beta iota zeta in H
        end
    end;
  try discriminate H;
  try (injection H as <-).

Lemma getMultiPolygonCenter_normal (g : MultiPolygon) :
  exists c, Geometry.getMultiPolygonCenter g = Normal c.
Proof. rewrite getMultiPolygonCenter_cases. eexists. reflexivity. Qed.

(** No step resets the error to null. *)
Lemma step_keeps_error (w w' : World) (e : Event) :
  step w e = Some w' ->
  error (state w) <> None -> error (state w') <> None.
Proof.
  intros H Herr. destruct e; open_step H; settle H; simpl;
    try exact Herr; discriminate.
Qed.

Lemma run_keeps_error (es : list Event) (w w' : World) :
  run w es = Some w' ->
  error (state w) <> None -> error (state w') <> None.
Proof.
  revert w. induction es as [|e es IH]; simpl; intros w H Herr.
  - injection H as <-. exact Herr.
  - destruct (step w e) as [w1|] eqn:E; [|discriminate H].
    apply (IH w1 H). exact (step_keeps_error w w1 e E Herr).
Qed.

(** While the error panel is shown no map handler is wired. *)
Lemma error_panel_blocks_map (w : World) (m : string) :
  render (state w) = ErrorPanel m ->
  step w MoveEnd = None /\ step w ZoomEnd = None /\
  (forall features, step w (MapClick features) = None) /\
  (forall i, step w (MarkerClick i) = None) /\
  step w PointPopupClose = None /\ step w AbalonePopupClose = None.
Proof.
  intro H. unfold step, move_end, on_map. rewrite H.
  repeat split; intros; split_cases; reflexivity.
Qed.

(** Every step keeps the selection well formed. *)
Lemma step_selection_ok (w w' : World) (e : Event) :
  step w e = Some w' ->
  selection_ok (state w) -> selection_ok (state w').
Proof.
  unfold selection_ok. intros H [Hone Hanchor].
  destruct e; open_step H; settle H; simpl;
    (split;
     [ first [ exact Hone | left; reflexivity | right; reflexivity ]
     | first [ exact Hanchor | split; intro; auto; discriminate ] ]).
Qed.

Lemma run_selection_ok (es : list Event) (w w' : World) :
  run w es = Some w' ->
  selection_ok (state w) -> selection_ok (state w').
Proof.
  revert w. induction es as [|e es IH]; simpl; intros w H Hok.
  - injection H as <-. exact Hok.
  - destruct (step w e) as [w1|] eqn:E; [|discriminate H].
    apply (IH w1 H). exact (step_selection_ok w w1 e E Hok).
Qed.

(** C3, as stated, fails: after a page query started by a viewport move
    has failed, the flags are back to idle and the loaded polygons are
    kept, but the error panel is rendered in place of the map, so that no
    move-end or zoom-end can call [handleMapMove] again, and no later event
    takes the error away. *)
Lemma pagination_error_replaces_map :
  exists w,
    run mounted failing_pagination = Some w /\
    subState (state w) = Idle /\
    abalones (state w) = [red_abalone] /\
    render (state w) = ErrorPanel "network down" /\
    step w MoveEnd = None /\
    step w ZoomEnd = None /\
    (forall es w', run w es = Some w' -> error (state w') <> None).
Proof.
  eexists. split; [reflexivity|].
  repeat (split; [reflexivity|]).
  intros es w' H. apply (run_keeps_error es _ w' H). discriminate.
Qed.

(** C3 (amended): when a page query fails, the loading-more flag is
    lowered and the has-more flag is left as it was, so that the
    pagination sub-state returns to idle (not exhausted) when it was not
    exhausted before; the collections are unchanged; the message is stored
    in the error cell of the page, which no event ever resets: while the
    message is not empty the error panel is rendered in place of the map,
    and no move-end or zoom-end event reaches [handleMapMove]. *)
Theorem failed_page_fetch (w : World) (k : nat) (p : Pending)
  (o : settled AbalonesResponse) (t : thrown) :
  nth_error (inFlight w) k = Some p ->
  failure o = Some t ->
  let m := message_of t "Failed to load abalone data" in
  exists w',
    step w (AbalonesSettled k o) = Some w' /\
    abalones (state w') = abalones (state w) /\
    points (state w') = points (state w) /\
    loadingMore (state w') = false /\
    hasMore (state w') = hasMore (state w) /\
    (hasMore (state w) = true -> subState (state w') = Idle) /\
    error (state w') = Some m /\
    (m <> ""%string ->
     render (state w') = ErrorPanel m /\
     step w' MoveEnd = None /\ step w' ZoomEnd = None) /\
    (forall es w'', run w' es = Some w'' -> error (state w'') <> None).
Proof.
  intros Hk Hfail m.
  set (s1 := setLoadingMore false (setError (Some m) (state w))).
  set (w' := mkWorld (if awaited p then setLoading false s1 else s1)
               (pointsPending w) (remove_nth k (inFlight w))).
  assert (Hstep : step w (AbalonesSettled k o) = Some w').
  { unfold step. rewrite Hk.
    rewrite (fetchAbalones_resume_failure _ o t _ Hfail). reflexivity. }
  assert (Herror : error (state w') = Some m)
    by (unfold w'; destruct (awaited p); reflexivity).
  assert (Hmore : hasMore (state w') = hasMore (state w))
    by (unfold w'; destruct (awaited p); reflexivity).
  assert (Hflag : loadingMore (state w') = false)
    by (unfold w'; destruct (awaited p); reflexivity).
  exists w'. split; [exact Hstep|].
  split; [unfold w'; destruct (awaited p); reflexivity|].
  split; [unfold w'; destruct (awaited p); reflexivity|].
  split; [exact Hflag|]. split; [exact Hmore|].
  split; [intro H; unfold subState; rewrite Hflag, Hmore, H; reflexivity|].
  split; [exact Herror|]. split.
  - intro Hm.
    assert (Hpanel : render (state w') = ErrorPanel m).
    { unfold render, error_shown. rewrite Herror.
      destruct (String.eqb_spec m ""); [contradiction|reflexivity]. }
    destruct (error_panel_blocks_map w' m Hpanel) as [Hmove [Hzoom _]].
    split; [exact Hpanel | split; [exact Hmove | exact Hzoom]].
  - intros es w'' Hrun. apply (run_keeps_error es w' w'' Hrun).
    rewrite Herror. discriminate.
Qed.

Lemma failed_page_fetch_witness :
  exists w',
    step (mkWorld (setLoadingMore true (ready [pier] [red_abalone])) false
            [mkPending 1 false])
      (AbalonesSettled 0 (Rejected (JsError "network down")))
    = Some w' /\
    abalones (state w') = [red_abalone] /\
    subState (state w') = Idle /\
    render (state w') = ErrorPanel "network down".
Proof.
  destruct (failed_page_fetch
              (mkWorld (setLoadingMore true (ready [pier] [red_abalone]))
                 false [mkPending 1 false])
              0 (mkPending 1 false) (Rejected (JsError "network down"))
              (JsError "network down") eq_refl eq_refl)
    as [w' [Hstep [Hab [_ [_ [_ [Hidle [_ [Hpanel _]]]]]]]]].
  exists w'. split; [exact Hstep|]. split; [exact Hab|].
  split; [apply Hidle; reflexivity|].
  apply Hpanel. discriminate.
Defined.

(** C5: in every reachable state at most one kind of selection is set (a
    point and a polygon are never selected together, and an anchor is set
    exactly when a polygon is); a marker click selects the point and
    clears the polygon selection with its anchor; a map click either
    changes nothing or leaves no point selected. *)
Theorem at_most_one_selection (w : World) :
  reachable w ->
  ~ (selectedPoint (state w) <> None /\ selectedAbalone (state w) <> None) /\
  selection_ok (state w) /\
  (forall point,
     let s' := markerClick point (state w) in
     selectedPoint s' = Some point /\
     selectedAbalone s' = None /\ selectedCoordinates s' = None) /\
  (forall features,
     let s' := handleMapClick features (state w) in
     s' = state w \/ selectedPoint s' = None).
Proof.
  intros [es Hrun].
  assert (Hok : selection_ok (state w)).
  { apply (run_selection_ok es mounted w Hrun).
    split; [left; reflexivity | split; reflexivity]. }
  split; [|split; [exact Hok|split]].
  - intros [Hp Ha]. destruct Hok as [[H|H] _]; contradiction.
  - intro point. simpl. repeat split.
  - intro features. unfold handleMapClick.
    destruct features as [[|feature rest]|];
      try (right; reflexivity).
    destruct (find _ _) as [abalone|]; [|left; reflexivity].
    destruct (Abalone.geom abalone) as [g|]; [|left; reflexivity].
    destruct (getMultiPolygonCenter_normal g) as [c Hc]. rewrite Hc.
    right. reflexivity.
Qed.

Lemma at_most_one_selection_witness :
  exists w,
    run mounted point_then_polygon = Some w /\
    selectedPoint (state w) = None /\
    option_map Abalone.gid (selectedAbalone (state w)) = Some 42%Z /\
    selection_ok (state w).
Proof.
  eexists. split; [vm_compute; reflexivity|].
  split; [reflexivity|]. split; [reflexivity|].
  refine (proj1 (proj2 (at_most_one_selection _ _))).
  exists point_then_polygon. vm_compute. reflexivity.
Defined.

(** [find] returns the first record with the gid. *)
Lemma find_first_with_gid (g : Z) (l : list Abalone.t) (a : Abalone.t) :
  first_with_gid g l a ->
  find (fun b => (Abalone.gid b =? g)%Z) l = Some a.
Proof.
  intros [before [after [-> [Hg Hbefore]]]].
  induction before as [|b before IH]; simpl.
  - rewrite (proj2 (Z.eqb_eq _ _) Hg). reflexivity.
  - destruct (Z.eqb_spec (Abalone.gid b) g) as [Heq|_].
    + exfalso. apply (Hbefore b); [left; reflexivity | exact Heq].
    + apply IH. intros c Hc. apply Hbefore. right. exact Hc.
Qed.





Lemma remove_nth_length {A : Type} (k : nat) (l : list A) (x : A) :
  nth_error l k = Some x -> length (remove_nth k l) = Nat.pred (length l).
Proof.
  revert k. induction l as [|y l IH]; intros [|k] H; simpl in *;
    try discriminate; try reflexivity.
  rewrite (IH k H). destruct l; [destruct k; discriminate H|reflexivity].
Qed.

(** Once the point query of startup has settled, the guard of
    [handleMapMove] keeps the page queries single flight. *)
Lemma step_single_flight (w w' : World) (e : Event) :
  step w e = Some w' -> single_flight w -> single_flight w'.
Proof.
  unfold single_flight. intros H [Hpts [Hlen Hflag]].
  destruct e.
  - unfold step in H. rewrite Hpts in H. discriminate H.
  - unfold step in H.
    destruct (nth_error (inFlight w) k) as [p|] eqn:Hk; [|discriminate H].
    injection H as <-. simpl.
    split; [exact Hpts|].
    pose proof (remove_nth_length k _ p Hk) as Hrm.
    assert (Hnil : remove_nth k (inFlight w) = []).
    { destruct (remove_nth k (inFlight w)); [reflexivity|].
      simpl in Hrm. lia. }
    rewrite Hnil. split; [simpl; lia|]. intro Hne. contradiction.
  - injection H as <-. simpl. destruct p; simpl; auto.
  - open_step H. settle H; simpl; auto.
  - open_step H. settle H; simpl.
    + split; [exact Hpts|].
      destruct (inFlight w) as [|q rest].
      * split; [simpl; lia|reflexivity].
      * rewrite Hflag in *; [discriminate|discriminate].
    + auto.
  - open_step H. settle H; simpl.
    + split; [exact Hpts|].
      destruct (inFlight w) as [|q rest].
      * split; [simpl; lia|reflexivity].
      * rewrite Hflag in *; [discriminate|discriminate].
    + auto.
  - open_step H. settle H; simpl; auto.
  - open_step H. settle H; simpl; auto.
  - open_step H. settle H; simpl; auto.
Qed.

Lemma run_single_flight (es : list Event) (w w' : World) :
  run w es = Some w' -> single_flight w -> single_flight w'.
Proof.
  revert w. induction es as [|e es IH]; simpl; intros w H Hsf.
  - injection H as <-. exact Hsf.
  - destruct (step w e) as [w1|] eqn:E; [|discriminate H].
    apply (IH w1 H). exact (step_single_flight w w1 e E Hsf).
Qed.

(** A move-end or zoom-end outside the idle sub-state sends nothing and
    changes nothing. *)
Lemma move_end_guard (w : World) :
  subState (state w) <> Idle ->
  forall w', step w MoveEnd = Some w' \/ step w ZoomEnd = Some w' -> w' = w.
Proof.
  intros Hsub w' H.
  assert (Hmove : move_end w = Some w') by (destruct H as [H|H]; exact H).
  unfold move_end in Hmove.
  rewrite (handleMapMove_guard _ Hsub) in Hmove.
  destruct (render (state w)); [discriminate Hmove|].
  injection Hmove as <-. destruct w; reflexivity.
Qed.

(** C6, on the code: a move-end that arrives while [fetchData] still
    awaits the point query passes the guard and sends the query for
    offset 0; when the point query settles, [fetchData] calls
    [fetchAbalones(0)] without consulting the guard. Two page queries for
    the same range are then in flight, and when both are answered the page
    is stored twice. *)
Theorem startup_fetch_overlaps_move_fetch :
  exists w w2,
    run mounted move_during_startup = Some w /\
    inFlight w = [mkPending 0 false; mkPending 0 true] /\
    length (inFlight w) = 2%nat /\
    run w [ AbalonesSettled 0 (page_of [red_abalone] (Some 250%Z));
            AbalonesSettled 0 (page_of [red_abalone] (Some 250%Z)) ]
    = Some w2 /\
    abalones (state w2) = [red_abalone; red_abalone].
Proof.
  eexists. eexists. split; [reflexivity|]. split; [reflexivity|].
  split; [reflexivity|]. split; reflexivity.
Qed.

(** C10: every completion of [fetchAbalones], on success and on failure,
    leaves the loading-more flag false, so that the sub-state is not
    fetching; the guard of [handleMapMove] then depends on the has-more
    flag only, and a move-end sends the query for the next offset whenever
    that flag is set. *)
Theorem fetch_always_lowers_flag (s : State) (offset : Z)
  (o : settled AbalonesResponse) :
  let s' := fetchAbalones_resume offset o s in
  loadingMore s' = false /\
  subState s' <> Fetching /\
  (hasMore s' = true ->
   snd (handleMapMove s')
   = Some (mkRange (Z.of_nat (length (abalones s')))
             (Z.of_nat (length (abalones s')) + PAGE_SIZE - 1))) /\
  (forall w k w',
     step w (AbalonesSettled k o) = Some w' ->
     loadingMore (state w') = false).
Proof.
  simpl. pose proof (fetchAbalones_resume_loadingMore offset o s) as Hflag.
  split; [exact Hflag|]. split; [|split].
  - unfold subState. rewrite Hflag.
    destruct (hasMore _); discriminate.
  - intro Hmore. rewrite handleMapMove_idle; [reflexivity|].
    unfold subState. rewrite Hflag, Hmore. reflexivity.
  - intros w k w' H. unfold step in H.
    destruct (nth_error (inFlight w) k) as [p|]; [|discriminate H].
    injection H as <-. simpl.
    pose proof (fetchAbalones_resume_loadingMore (startIndex p) o (state w))
      as Hp.
    destruct (awaited p); simpl; exact Hp.
Qed.

Lemma fetch_always_lowers_flag_witness :
  snd (handleMapMove
         (fetchAbalones_resume 0 (page_of [red_abalone] (Some 250%Z))
            (fst (fetchAbalones_begin 0 (ready [] [])))))
  = Some (mkRange 1 100).
Proof.
  exact (proj1 (proj2 (proj2
           (fetch_always_lowers_flag
              (fst (fetchAbalones_begin 0 (ready [] []))) 0
              (page_of [red_abalone] (Some 250%Z)))))
           eq_refl).
Defined.

(** *** Further invariants of the event system *)

(** X8: a map click, a marker click and the closing of a popup change the
    selection cells only: the collections, the error, the three flags and
    the queries that are out stay as they were. *)
Theorem selection_events_keep_data (w w' : World) (e : Event) :
  selection_event e = true ->
  step w e = Some w' ->
  points (state w') = points (state w) /\
  abalones (state w') = abalones (state w) /\
  error (state w') = error (state w) /\
  loading (state w') = loading (state w) /\
  loadingMore (state w') = loadingMore (state w) /\
  hasMore (state w') = hasMore (state w) /\
  pointsPending w' = pointsPending w /\
  inFlight w' = inFlight w.
Proof.
  intros He H. destruct e; try discriminate He;
    open_step H; settle H; simpl; repeat split.
Qed.

Lemma selection_events_keep_data_witness :
  exists w',
    step (mkWorld (ready [pier] [red_abalone]) false []) (MarkerClick 0)
    = Some w' /\
    abalones (state w') = [red_abalone] /\
    inFlight w' = [].
Proof.
  eexists. split; [reflexivity|].
  destruct (selection_events_keep_data
              (mkWorld (ready [pier] [red_abalone]) false []) _
              (MarkerClick 0) eq_refl eq_refl)
    as [_ [Hab [_ [_ [_ [_ [_ Hfl]]]]]]].
  split; [exact Hab | exact Hfl].
Defined.

Lemma filter_remove_nth {A : Type} (f : A -> bool) (k : nat) (l : list A)
  (x : A) :
  nth_error l k = Some x ->
  length (filter f l)
  = (length (filter f (remove_nth k l)) + (if f x then 1 else 0))%nat.
Proof.
  revert k. induction l as [|y l IH]; intros k H.
  - destruct k; discriminate H.
  - destruct k as [|k]; simpl in H.
    + injection H as ->. simpl. destruct (f x); simpl; lia.
    + simpl. specialize (IH k H). destruct (f y); simpl; lia.
Qed.

Lemma startup_running_steps (w : World) :
  startup_running w = negb (startup_steps w =? 0)%nat.
Proof.
  unfold startup_running, startup_steps.
  destruct (pointsPending w); simpl.
  - rewrite Nat.add_1_r. reflexivity.
  - rewrite Nat.add_0_r.
    induction (inFlight w) as [|p l IH]; simpl; [reflexivity|].
    destruct (awaited p); simpl; [reflexivity|exact IH].
Qed.

(** The steps of [fetchData] that remain match the loading flag, and no
    event adds one. *)
Lemma step_startup_steps (w w' : World) (e : Event) :
  step w e = Some w' ->
  startup_steps w = (if loading (state w) then 1 else 0)%nat ->
  startup_steps w' = (if loading (state w') then 1 else 0)%nat /\
  (startup_steps w' <= startup_steps w)%nat.
Proof.
  unfold startup_steps. intros H Hinv. destruct e.
  - unfold step in H.
    destruct (pointsPending w) eqn:Hp; [|discriminate H].
    injection H as <-. unfold fetchData_resume.
    assert (Hload : loading (state w) = true).
    { destruct (loading (state w)); [reflexivity|lia]. }
    assert (Hnone : length (filter awaited (inFlight w)) = 0%nat).
    { rewrite Hload in Hinv. lia. }
    destruct o as [r|t]; [destruct (pointsError r)|]; simpl;
      rewrite ?filter_app, ?length_app, ?Hnone, ?Hload; simpl; lia.
  - unfold step in H.
    destruct (nth_error (inFlight w) k) as [p|] eqn:Hk; [|discriminate H].
    injection H as <-. simpl.
    rewrite (filter_remove_nth awaited k _ p Hk) in Hinv.
    assert (Hsame : loading (fetchAbalones_resume (startIndex p) o (state w))
                    = loading (state w)).
    { unfold fetchAbalones_resume, try_catch_finally, fetchAbalones_try.
      destruct o as [r|t]; [destruct (abalonesError r); [|destruct (data r)]|];
        reflexivity. }
    rewrite (filter_remove_nth awaited k (inFlight w) p Hk).
    destruct (awaited p); simpl.
    + destruct (loading (state w)); lia.
    + rewrite Hsame. lia.
  - injection H as <-. simpl. destruct p; simpl; lia.
  - open_step H. settle H; simpl; lia.
  - open_step H. settle H; simpl;
      rewrite ?filter_app, ?length_app; simpl; lia.
  - open_step H. settle H; simpl;
      rewrite ?filter_app, ?length_app; simpl; lia.
  - open_step H. settle H; simpl; lia.
  - open_step H. settle H; simpl; lia.
  - open_step H. settle H; simpl; lia.
Qed.

Lemma run_startup_steps (es : list Event) (w w' : World) :
  run w es = Some w' ->
  startup_steps w = (if loading (state w) then 1 else 0)%nat ->
  startup_steps w' = (if loading (state w') then 1 else 0)%nat /\
  (startup_steps w' <= startup_steps w)%nat.
Proof.
  revert w. induction es as [|e es IH]; simpl; intros w H Hinv.
  - injection H as <-. split; [exact Hinv|lia].
  - destruct (step w e) as [w1|] eqn:E; [|discriminate H].
    destruct (step_startup_steps w w1 e E Hinv) as [Hinv1 Hle1].
    destruct (IH w1 H Hinv1) as [Hinv' Hle']. split; [exact Hinv'|lia].
Qed.

(** X9: in every reachable state the loading flag (the full-screen
    overlay) is raised exactly while [fetchData] has not reached its
    [finally], that is while its point query or the page query it awaits
    is out; and once the flag is lowered no later event raises it. *)
Theorem loading_while_startup_runs (w : World) :
  reachable w ->
  loading (state w) = startup_running w /\
  (forall es w',
     run w es = Some w' ->
     loading (state w) = false -> loading (state w') = false).
Proof.
  intros [es0 Hrun0].
  destruct (run_startup_steps es0 mounted w Hrun0 eq_refl) as [Hinv _].
  split.
  - rewrite startup_running_steps, Hinv.
    destruct (loading (state w)); reflexivity.
  - intros es w' Hrun Hoff.
    destruct (run_startup_steps es w w' Hrun Hinv) as [Hinv' Hle].
    rewrite Hoff in Hinv. rewrite Hinv in Hle.
    destruct (loading (state w')); [lia|reflexivity].
Qed.

Lemma loading_while_startup_runs_witness :
  exists w,
    run mounted failing_pagination = Some w /\
    loading (state w) = false /\
    startup_running w = false.
Proof.
  eexists. split; [reflexivity|]. split; [reflexivity|].
  refine (eq_trans (eq_sym (proj1 (loading_while_startup_runs _ _))) _).
  - exists failing_pagination. reflexivity.
  - reflexivity.
Defined.

(** X10: the polygon collection only grows at its end: whatever events
    occur, the polygons loaded before are still there, in the same order
    and at the same positions. *)
Theorem abalones_only_grow (es : list Event) (w w' : World) :
  run w es = Some w' ->
  exists more, abalones (state w') = abalones (state w) ++ more.
Proof.
  revert w. induction es as [|e es IH]; simpl; intros w H.
  - injection H as <-. exists []. rewrite app_nil_r. reflexivity.
  - destruct (step w e) as [w1|] eqn:E; [|discriminate H].
    destruct (IH w1 H) as [more Hmore]. rewrite Hmore.
    assert (Hstep : exists page,
               abalones (state w1) = abalones (state w) ++ page).
    { clear - E. destruct e; open_step E; settle E; simpl;
        try (exists []; rewrite app_nil_r; reflexivity);
        eexists; reflexivity. }
    destruct Hstep as [page ->]. exists (page ++ more).
    rewrite app_assoc. reflexivity.
Qed.

Lemma abalones_only_grow_witness :
  exists w more,
    run mounted failing_pagination = Some w /\
    abalones (state w) = abalones (state mounted) ++ more.
Proof.
  eexists.
  destruct (abalones_only_grow failing_pagination mounted _ eq_refl)
    as [more Hmore].
  exists more. split; [reflexivity|exact Hmore].
Defined.






Lemma step_halted (w w' : World) (e : Event) :
  halted w -> step w e = Some w' ->
  (exists p, e = PointsChange p) /\
  halted w' /\
  abalones (state w') = abalones (state w) /\
  error (state w') = error (state w) /\
  loading (state w') = loading (state w).
Proof.
  intros [Hpts [Hfl Herr]] H.
  assert (Hpanel : exists m, render (state w) = ErrorPanel m).
  { unfold render. destruct (error_shown (state w)) as [m|];
      [exists m; reflexivity | contradiction]. }
  destruct Hpanel as [m Hpanel].
  destruct (error_panel_blocks_map w m Hpanel)
    as [Hmove [Hzoom [Hclick [Hmarker [Hpoint Habalone]]]]].
  destruct e;
    try (rewrite ?Hmove, ?Hzoom, ?Hclick, ?Hmarker, ?Hpoint, ?Habalone in H;
         discriminate H).
  - unfold step in H. rewrite Hpts in H. discriminate H.
  - unfold step in H. rewrite Hfl in H. destruct k; discriminate H.
  - injection H as <-. split; [exists p; reflexivity|].
    unfold halted. simpl.
    destruct p; unfold error_shown in *; simpl; auto.
Qed.


(** X13: a state in which the error panel is shown and no query is out is
    final: only live point changes can still occur, and whatever occurs,
    the panel stays, the error and the polygons stay as they are, and no
    query is sent any more. *)
Theorem halted_is_final (es : list Event) (w w' : World) :
  halted w ->
  run w es = Some w' ->
  (forall e, In e es -> exists p, e = PointsChange p) /\
  halted w' /\
  abalones (state w') = abalones (state w) /\
  error (state w') = error (state w).
Proof.
  revert w. induction es as [|e es IH]; simpl; intros w Hh H.
  - injection H as <-. split; [intros e []|]. split; [exact Hh|].
    split; reflexivity.
  - destruct (step w e) as [w1|] eqn:E; [|discriminate H].
    destruct (step_halted w w1 e Hh E) as [He [Hh1 [Hab [Herr _]]]].
    destruct (IH w1 Hh1 H) as [Hes [Hh' [Hab' Herr']]].
    split; [|split; [exact Hh'|split; congruence]].
    intros e' [<-|Hin]; [exact He|exact (Hes e' Hin)].
Qed.

Lemma halted_is_final_witness :
  exists w w',
    run mounted failing_pagination = Some w /\
    run w [PointsChange (INSERT lighthouse)] = Some w' /\
    abalones (state w') = [red_abalone] /\
    error (state w') = Some "network down"%string.
Proof.
  eexists. eexists. split; [reflexivity|]. split; [reflexivity|].
  refine (proj2 (proj2
            (halted_is_final [PointsChange (INSERT lighthouse)] _ _ _
               eq_refl))).
  split; [reflexivity|]. split; [reflexivity|]. discriminate.
Defined.



(** X15: live changes that arrive while the point query of startup is
    still out are lost: when the query is answered, its rows replace the
    collection, whatever the changes had made of it. *)
Theorem early_changes_are_overwritten (changes : list payload)
  (rows : list MapPoint.t) (w : World) :
  pointsPending w = true ->
  exists w',
    run w (map PointsChange changes ++ [PointsSettled (points_of rows)])
    = Some w' /\
    points (state w') = rows.
Proof.
  revert w. induction changes as [|c changes IH]; intros w Hp; simpl.
  - rewrite Hp. eexists. split; reflexivity.
  - apply IH. exact Hp.
Qed.

Lemma early_changes_are_overwritten_witness :
  exists w',
    run mounted [ PointsChange (INSERT lighthouse);
                  PointsSettled (points_of [pier]) ] = Some w' /\
    points (state w') = [pier].
Proof.
  exact (early_changes_are_overwritten [INSERT lighthouse] [pier] mounted
           eq_refl).
Defined.

(** X17: in every reachable state in which the map is rendered, there is
    one marker per point, at most one of the two popups is shown, and the
    polygon popup is shown exactly when a polygon is selected. *)
Theorem at_most_one_popup (w : World) (overlay badge : bool)
  (markers : list MapPoint.t) (pointPopup : option MapPoint.t)
  (abalonePopup : option (Abalone.t * (float * float))) :
  reachable w ->
  render (state w) = MapView overlay badge markers pointPopup abalonePopup ->
  markers = points (state w) /\
  (pointPopup = None \/ abalonePopup = None) /\
  (abalonePopup <> None <-> selectedAbalone (state w) <> None).
Proof.
  intros [es Hrun] Hview.
  assert (Hok : selection_ok (state w)).
  { apply (run_selection_ok es mounted w Hrun).
    split; [left; reflexivity | split; reflexivity]. }
  destruct Hok as [Hone Hanchor].
  unfold render in Hview.
  destruct (error_shown (state w)); [discriminate Hview|].
  injection Hview as _ _ <- <- <-. split; [reflexivity|].
  destruct (selectedAbalone (state w)) as [a|] eqn:Ha.
  - destruct (selectedCoordinates (state w)) as [c|] eqn:Hc.
    + split; [destruct Hone as [H|H]; [left; exact H|discriminate H]|].
      split; intros _; discriminate.
    + exfalso. destruct Hanchor as [_ H]. discriminate (H eq_refl).
  - split; [right; reflexivity|]. split; intro H; exfalso; apply H;
      reflexivity.
Qed.

Lemma at_most_one_popup_witness :
  exists w,
    run mounted point_then_polygon = Some w /\
    selectedAbalone (state w) <> None.
Proof.
  eexists. split; [vm_compute; reflexivity|].
  match goal with
  | |- selectedAbalone (state ?w) <> None =>
      refine (proj1 (proj2 (proj2
                (at_most_one_popup w false false [pier] None
                   (Some (red_abalone, (3%float, (4 / 6)%float))) _ _))) _)
  end.
  - exists point_then_polygon. vm_compute. reflexivity.
  - vm_compute. reflexivity.
  - discriminate.
Defined.

(** X18: in every reachable state, closing a popup leaves no selection at
    all: the point, the polygon and the anchor are all cleared, and the
    map shows no popup. *)
Theorem popup_close_leaves_no_selection (w w' : World) (e : Event) :
  reachable w ->
  e = PointPopupClose \/ e = AbalonePopupClose ->
  step w e = Some w' ->
  selectedPoint (state w') = None /\
  selectedAbalone (state w') = None /\
  selectedCoordinates (state w') = None.
Proof.
  intros [es Hrun] He H.
  assert (Hok : selection_ok (state w)).
  { apply (run_selection_ok es mounted w Hrun).
    split; [left; reflexivity | split; reflexivity]. }
  destruct Hok as [Hone Hanchor].
  destruct He as [-> | ->]; open_step H; settle H; simpl.
  - destruct Hone as [Hp|Ha]; [discriminate Hp|].
    split; [reflexivity|]. split; [exact Ha|apply Hanchor, Ha].
  - destruct Hone as [Hp|Ha]; [|discriminate Ha].
    split; [exact Hp|]. split; reflexivity.
Qed.

Lemma popup_close_leaves_no_selection_witness :
  exists w w',
    run mounted point_then_polygon = Some w /\
    step w AbalonePopupClose = Some w' /\
    selectedPoint (state w') = None /\
    selectedAbalone (state w') = None.
Proof.
  eexists. eexists. split; [vm_compute; reflexivity|].
  split; [vm_compute; reflexivity|].
  match goal with
  | |- selectedPoint (state ?w') = None /\ _ =>
      destruct (popup_close_leaves_no_selection _ w' AbalonePopupClose
                  (ex_intro _ point_then_polygon eq_refl)
                  (or_intror eq_refl) eq_refl)
        as [Hp [Ha _]]
  end.
  split; [exact Hp|exact Ha].
Defined.

End System.

(** * Further properties *)

(** ** Live updates: deletion, and how the three notifications compose *)

Section LiveUpdatesMore.

(** X1: a delete notification removes exactly the points that carry the
    id: the points left are those of the old collection with another id,
    the id no longer occurs, distinct ids stay distinct, and a delete for
    an id that is not present changes nothing. *)
Theorem delete_removes_exactly (s : State) (i : string) :
  let s' := on_points_change (DELETE i) s in
  (forall q, In q (points s') <-> In q (points s) /\ MapPoint.id q <> i) /\
  ~ In i (ids s') /\
  (NoDup (ids s) -> NoDup (ids s')) /\
  (~ In i (ids s) -> s' = s).
Proof.
  unfold ids. simpl. split; [|split; [|split]].
  - intro q. rewrite filter_In. split; intros [Hin Hid]; split; auto.
    + intro Heq. rewrite (proj2 (String.eqb_eq _ _) Heq) in Hid.
      discriminate Hid.
    + destruct (String.eqb_spec (MapPoint.id q) i); [contradiction|].
      reflexivity.
  - intro Hin. apply in_map_iff in Hin. destruct Hin as [q [Hq Hin]].
    apply filter_In in Hin. destruct Hin as [_ Hne].
    rewrite (proj2 (String.eqb_eq _ _) Hq) in Hne. discriminate Hne.
  - induction (points s) as [|q rest IH]; simpl; intro Hnodup.
    + constructor.
    + inversion Hnodup as [|x l Hnotin Hrest]; subst.
      destruct (negb (MapPoint.id q =? i)%string); [|apply IH, Hrest].
      simpl. constructor; [|apply IH, Hrest].
      intro Hin. apply Hnotin. apply in_map_iff in Hin.
      destruct Hin as [q' [Hq' Hin]]. apply filter_In in Hin.
      apply in_map_iff. exists q'. split; [exact Hq'|apply Hin].
  - intro Hnotin. destruct s as [ps abs sp sa sc er lo lm hm]. simpl in *.
    unfold setPoints. simpl. f_equal.
    induction ps as [|q rest IH]; simpl; [reflexivity|].
    destruct (String.eqb_spec (MapPoint.id q) i) as [Heq|Hne]; simpl.
    + exfalso. apply Hnotin. left. exact Heq.
    + f_equal. apply IH. intro Hin. apply Hnotin. right. exact Hin.
Qed.

Lemma delete_removes_exactly_witness :
  points (on_points_change (DELETE "p1") (ready [pier; lighthouse] []))
  = [lighthouse] /\
  on_points_change (DELETE "p3") (ready [pier; lighthouse] [])
  = ready [pier; lighthouse] [].
Proof.
  split; [reflexivity|].
  apply (proj2 (proj2 (proj2
           (delete_removes_exactly (ready [pier; lighthouse] []) "p3")))).
  intros [H|[H|[]]]; discriminate H.
Defined.

(** X2: inserting a record whose id is new and then deleting that id
    gives back the state from before the insert. *)
Theorem insert_then_delete_restores (s : State) (new : MapPoint.t) :
  ~ In (MapPoint.id new) (ids s) ->
  on_points_change (DELETE (MapPoint.id new))
    (on_points_change (INSERT new) s)
  = s.
Proof.
  intro Hnotin. destruct s as [ps abs sp sa sc er lo lm hm].
  unfold ids in Hnotin. simpl in *. unfold setPoints. simpl. f_equal.
  rewrite filter_app. simpl. rewrite String.eqb_refl. simpl.
  rewrite app_nil_r.
  induction ps as [|q rest IH]; simpl; [reflexivity|].
  destruct (String.eqb_spec (MapPoint.id q) (MapPoint.id new)) as [Heq|Hne];
    simpl.
  - exfalso. apply Hnotin. left. exact Heq.
  - f_equal. apply IH. intro Hin. apply Hnotin. right. exact Hin.
Qed.

Lemma insert_then_delete_restores_witness :
  on_points_change (DELETE "p2")
    (on_points_change (INSERT lighthouse) (ready [pier] []))
  = ready [pier] [].
Proof.
  apply (insert_then_delete_restores (ready [pier] []) lighthouse).
  intros [H|[]]. discriminate H.
Defined.

(** X3: an update notification never changes the sequence of ids (hence
    neither the length, nor the order, nor whether ids are distinct), and
    applying the same update twice is the same as applying it once. *)
Theorem update_keeps_ids (s : State) (new : MapPoint.t) :
  ids (on_points_change (UPDATE new) s) = ids s /\
  on_points_change (UPDATE new) (on_points_change (UPDATE new) s)
  = on_points_change (UPDATE new) s.
Proof.
  unfold ids. simpl. split.
  - rewrite map_map. apply map_ext_in. intros q _.
    destruct (String.eqb_spec (MapPoint.id q) (MapPoint.id new)) as [Heq|_];
      [symmetry; exact Heq | reflexivity].
  - unfold setPoints. simpl. f_equal.
    rewrite map_map. apply map_ext_in. intros q _.
    destruct (MapPoint.id q =? MapPoint.id new)%string eqn:E.
    + rewrite String.eqb_refl. reflexivity.
    + rewrite E. reflexivity.
Qed.

(** X4: an insert of a record with a fresh id followed by an update for
    that id leaves the collection as if the updated record had been
    inserted: the old points in their order, then the new record. *)
Theorem update_after_insert (s : State) (first_version new : MapPoint.t) :
  MapPoint.id first_version = MapPoint.id new ->
  ~ In (MapPoint.id new) (ids s) ->
  points (on_points_change (UPDATE new)
            (on_points_change (INSERT first_version) s))
  = points s ++ [new].
Proof.
  intros Hid Hnotin. unfold ids in Hnotin. simpl.
  rewrite map_app. simpl. rewrite Hid, String.eqb_refl. f_equal.
  induction (points s) as [|q rest IH]; simpl; [reflexivity|].
  simpl in Hnotin.
  destruct (String.eqb_spec (MapPoint.id q) (MapPoint.id new)) as [Heq|_].
  - exfalso. apply Hnotin. left. exact Heq.
  - f_equal. apply IH. intro Hin. apply Hnotin. right. exact Hin.
Qed.

Lemma update_after_insert_witness :
  points (on_points_change (UPDATE pier_renamed)
            (on_points_change (INSERT pier) (ready [lighthouse] [])))
  = [lighthouse; pier_renamed].
Proof.
  apply (update_after_insert (ready [lighthouse] []) pier pier_renamed).
  - reflexivity.
  - intros [H|[]]. discriminate H.
Defined.

End LiveUpdatesMore.

(** ** Geometry helper: what the anchor can be *)

Section GeometryMore.

Import Geometry VertexMean.

Lemma SFcompare_refl (x : spec_float) :
  x <> S754_nan -> SFcompare x x = Some Eq.
Proof.
  destruct x as [b|b| |b m e]; intro H; simpl.
  - reflexivity.
  - destruct b; reflexivity.
  - contradiction.
  - destruct b; rewrite Z.compare_refl, Pos.compare_refl; reflexivity.
Qed.

Lemma is_nan_spec (x : float) :
  is_nan x = true <-> Prim2SF x = S754_nan.
Proof.
  unfold is_nan. rewrite FloatAxioms.eqb_spec. unfold SFeqb. split.
  - intro H. destruct (Prim2SF x) eqn:E; try reflexivity;
      rewrite SFcompare_refl in H by discriminate; discriminate H.
  - intros ->. reflexivity.
Qed.

Lemma add_nan_l (x y : float) : is_nan x = true -> is_nan (x + y) = true.
Proof. rewrite !is_nan_spec, add_spec. intros ->. reflexivity. Qed.

Lemma add_nan_r (x y : float) : is_nan y = true -> is_nan (x + y) = true.
Proof.
  rewrite !is_nan_spec, add_spec. intros ->.
  destruct (Prim2SF x); reflexivity.
Qed.

Lemma div_nan_l (x y : float) : is_nan x = true -> is_nan (x / y) = true.
Proof. rewrite !is_nan_spec, div_spec. intros ->. reflexivity. Qed.

(** A sum that has become NaN stays NaN, and a NaN term makes it NaN. *)
Lemma fold_add_nan_acc (xs : list float) (acc : float) :
  is_nan acc = true -> is_nan (fold_left PrimFloat.add xs acc) = true.
Proof.
  revert acc. induction xs as [|x xs IH]; simpl; intros acc H.
  - exact H.
  - apply IH, add_nan_l, H.
Qed.

Lemma fold_add_nan_term (xs : list float) (acc : float) :
  (exists x, In x xs /\ is_nan x = true) ->
  is_nan (fold_left PrimFloat.add xs acc) = true.
Proof.
  revert acc. induction xs as [|y xs IH]; simpl; intros acc [x [Hin Hx]].
  - destruct Hin.
  - destruct Hin as [->|Hin].
    + apply fold_add_nan_acc, add_nan_r, Hx.
    + apply IH. exists x. split; assumption.
Qed.

Lemma mean_nan_term (xs : list float) :
  (exists x, In x xs /\ is_nan x = true) -> is_nan (mean xs) = true.
Proof. intro H. apply div_nan_l, fold_add_nan_term, H. Qed.

(** X5: the coordinate that [getMultiPolygonCenter] returns is never NaN
    in either component, whatever the geometry: a popup anchored on it
    always has a numeric longitude and latitude. *)
Theorem center_is_numeric (geom : MultiPolygon) :
  exists x y,
    getMultiPolygonCenter geom = Normal (x, y) /\
    is_nan x = false /\ is_nan y = false.
Proof.
  rewrite getMultiPolygonCenter_cases.
  destruct (degenerate geom) eqn:Hd.
  - exists (fst fallback), (snd fallback).
    split; [reflexivity|]. split; vm_compute; reflexivity.
  - exists (mean_lon geom), (mean_lat geom). split; [reflexivity|].
    unfold degenerate in Hd.
    apply orb_false_elim in Hd. destruct Hd as [Hd Hlat].
    apply orb_false_elim in Hd. destruct Hd as [_ Hlon].
    split; assumption.
Qed.

(** X6: one outer-ring vertex with a NaN or a missing longitude or
    latitude is enough for the fallback: the NaN runs through the sum and
    the division and is caught by the check on the means. *)
Theorem nan_vertex_gives_fallback (geom : MultiPolygon) (p : Position) :
  In p (outer_vertices geom) ->
  is_nan (lon p) = true \/ is_nan (lat p) = true ->
  getMultiPolygonCenter geom = Normal fallback.
Proof.
  intros Hin Hnan. rewrite getMultiPolygonCenter_cases.
  assert (Hd : degenerate geom = true); [|rewrite Hd; reflexivity].
  unfold degenerate, mean_lon, mean_lat.
  destruct Hnan as [H|H].
  - rewrite (mean_nan_term (map lon (outer_vertices geom))).
    + rewrite orb_true_r. reflexivity.
    + exists (lon p). split; [apply in_map, Hin|exact H].
  - rewrite (mean_nan_term (map lat (outer_vertices geom))).
    + rewrite orb_true_r. reflexivity.
    + exists (lat p). split; [apply in_map, Hin|exact H].
Qed.

Lemma nan_vertex_gives_fallback_witness :
  getMultiPolygonCenter
    (mkMultiPolygon [ [ [ [1; 2]; [3]; [5; 6] ] ] ]%float)
  = Normal fallback.
Proof.
  apply (nan_vertex_gives_fallback
           (mkMultiPolygon [ [ [ [1; 2]; [3]; [5; 6] ] ] ]%float)
           [3%float]).
  - right. left. reflexivity.
  - right. reflexivity.
Defined.

End GeometryMore.

(** ** The feature collection and the click lookup *)

Section FeatureCollection.

Lemma first_with_unique_gid (l : list Abalone.t) (a : Abalone.t) :
  NoDup (map Abalone.gid l) -> In a l ->
  first_with_gid (Abalone.gid a) l a.
Proof.
  intros Hnodup Hin. apply in_split in Hin.
  destruct Hin as [before [after ->]].
  exists before, after. split; [reflexivity|]. split; [reflexivity|].
  intros b Hb Heq. rewrite map_app in Hnodup. simpl in Hnodup.
  apply NoDup_remove_2 in Hnodup. apply Hnodup.
  apply in_or_app. left. rewrite <- Heq. apply in_map, Hb.
Qed.

(** X7: the feature collection has one feature per loaded record, in the
    order of the records and with their gids; when the gids are distinct, a
    click on the feature at some position that has a geometry selects the
    record at that position, anchors it, and clears the point selection. *)
Theorem feature_click_selects_its_record (s : State) (i : nat)
  (f : GeoJSON.Feature) :
  NoDup (map Abalone.gid (abalones s)) ->
  nth_error (abalonesGeoJSON s) i = Some f ->
  GeoJSON.geometry f <> None ->
  map (fun f => GeoJSON.gid (GeoJSON.properties f)) (abalonesGeoJSON s)
  = map Abalone.gid (abalones s) /\
  exists a,
    nth_error (abalones s) i = Some a /\
    let s' := handleMapClick (Some [clicked f]) s in
    selectedAbalone s' = Some a /\
    selectedCoordinates s' <> None /\
    selectedPoint s' = None.
Proof.
  intros Hnodup Hf Hgeom. unfold abalonesGeoJSON in *. split.
  { rewrite map_map. reflexivity. }
  rewrite nth_error_map in Hf.
  destruct (nth_error (abalones s) i) as [a|] eqn:Ha; [|discriminate Hf].
  simpl in Hf. injection Hf as <-. simpl in Hgeom.
  exists a. split; [reflexivity|].
  unfold handleMapClick, clicked. simpl.
  rewrite (find_first_with_gid _ _ a
             (first_with_unique_gid _ a Hnodup (nth_error_In _ _ Ha))).
  destruct (Abalone.geom a) as [g|]; [|contradiction].
  destruct (getMultiPolygonCenter_normal g) as [c Hc]. rewrite Hc. simpl.
  repeat split. discriminate.
Qed.

Lemma feature_click_selects_its_record_witness :
  option_map Abalone.gid
    (selectedAbalone
       (handleMapClick
          (Some [clicked (GeoJSON.mkFeature (Some two_triangles)
                            (GeoJSON.mkProperties 42 "Haliotis rufescens" 1
                               "IUCN" "IUCN 2021"))])
          (ready [] [collapsed_abalone; red_abalone])))
  = Some 42%Z.
Proof.
  destruct (feature_click_selects_its_record
              (ready [] [collapsed_abalone; red_abalone]) 1
              (GeoJSON.mkFeature (Some two_triangles)
                 (GeoJSON.mkProperties 42 "Haliotis rufescens" 1
                    "IUCN" "IUCN 2021")))
    as [_ [a [Ha [Hsel _]]]].
  - repeat constructor; simpl; intuition discriminate.
  - reflexivity.
  - discriminate.
  - simpl in Ha. injection Ha as <-.
    exact (f_equal (option_map Abalone.gid) Hsel).
Defined.

End FeatureCollection.

(** ** Paging through a table *)

Section Paging.

Variable table : list Abalone.t.
Variable store : RangeRequest -> settled AbalonesResponse.
Hypothesis store_answers : forall req, answers table req (store req).

Lemma firstn_add {A : Type} (a b : nat) (l : list A) :
  firstn (a + b) l = firstn a l ++ firstn b (skipn a l).
Proof.
  revert l. induction a as [|a IH]; intros l; simpl.
  - reflexivity.
  - destruct l as [|x l]; simpl.
    + rewrite firstn_nil. reflexivity.
    + rewrite IH. reflexivity.
Qed.

Lemma prefix_length (n : nat) :
  length (firstn n table) = n -> (n <= length table)%nat.
Proof. rewrite length_firstn. lia. Qed.

(** The rows of the request that [handleMapMove] sends at offset [n]. *)
Lemma range_rows_page (n : nat) :
  range_rows table
    (mkRange (Z.of_nat n) (Z.of_nat n + PAGE_SIZE - 1))
  = firstn 100 (skipn n table).
Proof.
  unfold range_rows, PAGE_SIZE. simpl.
  replace (Z.of_nat n + 100 - 1 - Z.of_nat n + 1)%Z with 100%Z by lia.
  rewrite Nat2Z.id. reflexivity.
Qed.

(** A round is a move-end followed by the settling of the query that the
    move has sent. *)
Lemma page_round_as_events (w : World) :
  inFlight w = [] ->
  error_shown (state w) = None ->
  subState (state w) = Idle ->
  run w [ MoveEnd;
          AbalonesSettled 0
            (store (mkRange (Z.of_nat (length (abalones (state w))))
                      (Z.of_nat (length (abalones (state w)))
                       + PAGE_SIZE - 1))) ]
  = Some (mkWorld (page_round store (state w)) (pointsPending w) []).
Proof.
  intros Hfl Herr Hidle. unfold run, step, move_end, render, page_round.
  rewrite Herr, (handleMapMove_idle _ Hidle), Hfl. reflexivity.
Qed.

(** One round from a state that holds a prefix of the table. *)
Lemma page_round_prefix (s : State) :
  loaded_prefix table s ->
  let s' := page_round store s in
  loaded_prefix table s' /\
  (hasMore s = false -> s' = s) /\
  (hasMore s = true ->
   abalones s' = firstn (length (abalones s) + 100) table /\
   (hasMore s' = true ->
    (length (abalones s) + 100 < length table)%nat /\
    length (abalones s') = (length (abalones s) + 100)%nat)).
Proof.
  intros [Hflag [Hprefix Hall]]. unfold page_round.
  destruct (hasMore s) eqn:Hmore.
  - rewrite handleMapMove_idle
      by (unfold subState; rewrite Hflag, Hmore; reflexivity).
    cbn [range_from].
    destruct (store_answers
                (mkRange (Z.of_nat (length (abalones s)))
                   (Z.of_nat (length (abalones s)) + PAGE_SIZE - 1)))
      as [r [Hstore [Herr [Hdata Hcount]]]].
    rewrite Hstore. rewrite range_rows_page in Hdata.
    unfold fetchAbalones_resume, try_catch_finally, fetchAbalones_try.
    rewrite Herr, Hdata, Hcount. cbn beta iota zeta.
    set (n := length (abalones s)) in *.
    assert (Hn : (n <= length table)%nat).
    { apply prefix_length. rewrite <- Hprefix. reflexivity. }
    assert (Hnew : abalones s ++ firstn 100 (skipn n table)
                   = firstn (n + 100) table).
    { rewrite firstn_add, <- Hprefix. reflexivity. }
    unfold loaded_prefix.
    cbn [abalones loadingMore hasMore setLoadingMore setHasMore setAbalones].
    rewrite Hnew.
    rewrite length_firstn.
    split; [split; [reflexivity|split]|split; [discriminate|]].
    + destruct (Nat.le_gt_cases (n + 100) (length table)) as [Hle|Hgt].
      * rewrite Nat.min_l by exact Hle. reflexivity.
      * rewrite Nat.min_r by lia.
        rewrite !firstn_all2 by lia. reflexivity.
    + destruct (Z.eqb_spec (Z.of_nat (length table)) 0) as [Hz|Hnz]; simpl.
      * intros _. destruct table; [|discriminate Hz].
        apply firstn_nil.
      * unfold PAGE_SIZE. intro Hlt. apply Z.ltb_ge in Hlt.
        apply firstn_all2. lia.
    + intros _. split; [reflexivity|].
      destruct (Z.eqb_spec (Z.of_nat (length table)) 0) as [Hz|Hnz]; simpl;
        [discriminate|].
      unfold PAGE_SIZE. intro Hlt. apply Z.ltb_lt in Hlt.
      split; [lia|]. apply Nat.min_l. lia.
  - rewrite handleMapMove_guard
      by (unfold subState; rewrite Hflag, Hmore; discriminate).
    split; [split; [exact Hflag|split;
                      [exact Hprefix|intros _; exact (Hall eq_refl)]]|].
    split; [reflexivity|discriminate].
Qed.

Lemma page_rounds_prefix (s : State) (k : nat) :
  loaded_prefix table s ->
  let s' := Nat.iter k (page_round store) s in
  loaded_prefix table s' /\
  (hasMore s' = true ->
   length (abalones s') = (length (abalones s) + 100 * k)%nat /\
   ((1 <= k)%nat -> (length (abalones s') < length table)%nat)).
Proof.
  intro Hs. induction k as [|k IH]; simpl.
  - split; [exact Hs|]. intros _. split; lia.
  - destruct IH as [Hk Hlen].
    destruct (page_round_prefix _ Hk) as [Hnext [Hstay Hgrow]].
    split; [exact Hnext|]. intro Hmore'.
    destruct (hasMore (Nat.iter k (page_round store) s)) eqn:Hmore.
    + destruct (Hgrow eq_refl) as [_ Hfull].
      destruct (Hfull Hmore') as [Hlt Hlen'].
      destruct (Hlen eq_refl) as [Hlenk _].
      split; [lia|]. intros _. lia.
    + rewrite (Hstay eq_refl) in Hmore'. congruence.
Qed.

(** X16: with a store that answers every range query from one table
    (the rows of the range, and the exact count), viewport moves load the
    table page by page: after any number of rounds the polygons loaded are
    the first rows of the table, in order and without repetition, and after
    at least one round and enough rounds to cover the table, the whole
    table is loaded and the sub-state is exhausted. *)
Theorem paging_loads_the_table (s : State) (k : nat) :
  loaded_prefix table s ->
  let s' := Nat.iter k (page_round store) s in
  abalones s' = firstn (length (abalones s')) table /\
  ((1 <= k)%nat ->
   (length table <= length (abalones s) + 100 * k)%nat ->
   abalones s' = table /\ subState s' = Exhausted).
Proof.
  intro Hs.
  destruct (page_rounds_prefix s k Hs) as [[Hflag [Hprefix Hall]] Hlen].
  split; [exact Hprefix|]. intros Hk Hcover.
  destruct (hasMore (Nat.iter k (page_round store) s)) eqn:Hmore.
  - destruct (Hlen eq_refl) as [Hl Hlt]. specialize (Hlt Hk). lia.
  - split; [exact (Hall eq_refl)|].
    unfold subState. rewrite Hflag, Hmore. reflexivity.
Qed.

End Paging.

Lemma paging_loads_the_table_witness :
  abalones (Nat.iter 2 (page_round sample_store)
              (ready [] (firstn 100 sample_table)))
  = sample_table.
Proof.
  refine (proj1 (proj2 (paging_loads_the_table sample_table sample_store _
                          (ready [] (firstn 100 sample_table)) 2 _)
                   _ _)).
  - intro req. eexists. repeat split.
  - split; [reflexivity|]. split; [reflexivity|discriminate].
  - lia.
  - vm_compute. lia.
Defined.
